(** * Environment-adaptive meta scoring engine: embedding and properties

    A shallow embedding of the scoring core of the Pokemon TCG Pocket meta
    analyser: coverage selection ([utils/coverage.ts]), the deck optimiser
    ([DeckOptimizer]), the tier classifier and the diversity index of the
    storage layer ([DataStorage]), the cycle detector, the recommendation
    by skill level, the trend predictor and the Simpson index of
    [analyzer/advanced.ts], and the normalised Shannon index, the
    counter-play index and the hidden gems of [AdvancedMetaAnalysis].

    Conventions of the embedding.
    - A JavaScript [number] is an IEEE 754 double.  Where the value of an
      arithmetic expression decides a statement (the coverage selection,
      the expected win rate, the slope of a trend) the functions are given
      on doubles, in the module [Ieee].  Where a statement depends on
      comparisons, order, membership and counts alone, the numbers are read
      as exact rationals ([Q]) and rounding does not enter.
    - An array is a [list]; [Array.prototype.sort] is the stable sort the
      language prescribes, written as an insertion sort.
    - A [Map] is an association list in insertion order.
    - [Math.sqrt], [Math.log2] and [Number.prototype.toFixed] are primitives
      of the host, collected in the class [JsRuntime].
    - Object identity matters in one place ([recommendTournamentLineup]
      compares analyses with [!==]); there the objects carry an address. *)

From Stdlib Require Import String Ascii List QArith Qround Qabs ZArith Bool Lia Lqa.
From Stdlib Require Import Permutation Sorted DecimalString.
From Stdlib Require Import Floats.
Import ListNotations.
Local Open Scope Q_scope.

(** ** Host primitives *)

(** The functions of the host that have no exact rational value or produce
    text.  Their values where the host gives NaN or an infinity (the square
    root of a negative number, the logarithm of a number that is not
    positive) are not modelled. *)
Class JsRuntime : Type := {
  Math_sqrt : Q -> Q;
  Math_log2 : Q -> Q;
  toFixed : Q -> nat -> string
}.

Module Js.

Definition ltb (x y : Q) : bool := negb (Qle_bool y x).
Definition geb (x y : Q) : bool := Qle_bool y x.
Definition gtb (x y : Q) : bool := ltb y x.

(** [x / y], with [None] for the non-finite result (NaN or an infinity) of a
    division by zero. *)
Definition div (x y : Q) : option Q :=
  if Qeq_bool y 0 then None else Some (x / y).

Definition Math_round (x : Q) : Q := inject_Z (Qfloor (x + (1 # 2))).
Definition Math_max (x y : Q) : Q := if Qle_bool x y then y else x.
Definition Math_min (x y : Q) : Q := if Qle_bool x y then x else y.

(** [l.length] as a number. *)
Definition len {A : Type} (l : list A) : Q := inject_Z (Z.of_nat (List.length l)).

(** [Array.prototype.sort(cmp)]: [x] is put before the first [y] that does
    not have to precede it ([cmp x y <= 0]), so equal elements keep their
    order. *)
Fixpoint insert {A : Type} (cmp : A -> A -> Q) (x : A) (l : list A) : list A :=
  match l with
  | [] => [x]
  | y :: l' => if Qle_bool (cmp x y) 0 then x :: l else y :: insert cmp x l'
  end.

Definition sort {A : Type} (cmp : A -> A -> Q) (l : list A) : list A :=
  fold_right (insert cmp) [] l.

(** [l.slice(s, e)] for [0 <= s <= e]. *)
Definition slice {A : Type} (s e : nat) (l : list A) : list A :=
  firstn (e - s) (skipn s l).

(** [l.some(p)]. *)
Definition some {A : Type} (p : A -> bool) (l : list A) : bool := existsb p l.

(** [Map.prototype.get]. *)
Definition Map_get {V : Type} (m : list (string * V)) (k : string) : option V :=
  option_map snd (find (fun kv => String.eqb (fst kv) k) m).

(** [s.includes(needle)]. *)
Fixpoint includes (needle s : string) : bool :=
  String.prefix needle s
  || match s with
     | EmptyString => false
     | String _ s' => includes needle s'
     end.

(** [s.split(' ')[0]]: the text before the first space. *)
Fixpoint firstToken (s : string) : string :=
  match s with
  | EmptyString => EmptyString
  | String c s' => if Ascii.eqb c " "%char then EmptyString else String c (firstToken s')
  end.

(** [for (i ...) for (j = i + 1 ...)]: the body sees an element and the
    elements after it, and the results are collected in loop order. *)
Fixpoint forEachWithRest {A B : Type} (body : A -> list A -> list B) (l : list A)
  : list B :=
  match l with
  | [] => []
  | x :: rest => body x rest ++ forEachWithRest body rest
  end.

End Js.

(** ** api/types.ts *)

Module Api.

Record Deck : Type := {
  rank : Q;
  name : string;
  count : Q;
  share : Q;
  score : string;
  winRate : Q;
  wins : Q;
  losses : Q;
  ties : Q
}.

(** [EnvironmentalAnalysis], of which [DeckAnalysis] is an alias. *)
Record DeckAnalysis : Type := {
  deck : Deck;
  expectedWinRate : Q;
  tier : string;
  confidenceLevel : Q;
  stability : Q;
  weaknesses : list string;
  strengths : list string;
  recommendation : option string
}.

Record TimeSeries : Type := {
  date : string;
  decks : list Deck
}.

Record MetaPrediction : Type := {
  risingDecks : list string;
  decliningDecks : list string;
  prediction_confidenceLevel : Q
}.

(** [MetaCycle]; its field [decks] is [cycle_decks] here. *)
Record MetaCycle : Type := {
  cycle_decks : list string;
  strength : Q
}.

Record SkillBasedRecommendation : Type := {
  beginner : list DeckAnalysis;
  intermediate : list DeckAnalysis;
  expert : list DeckAnalysis
}.

End Api.

(** ** storage/database.ts: the storage layer *)

Module DataStorage.

Definition getTier (expectedWinRate : Q) : string :=
  if Js.geb expectedWinRate 57 then "SS"
  else if Js.geb expectedWinRate 55 then "S"
  else if Js.geb expectedWinRate 53 then "A+"
  else if Js.geb expectedWinRate 51 then "A"
  else if Js.geb expectedWinRate 49 then "B"
  else "C".

Section WithLogarithm.
(** [Math.log], with [None] where the host gives NaN or minus infinity (an
    argument that is not positive), and [Math.exp]. *)
Context (Math_log : Q -> option Q) (Math_exp : Q -> Q).

(** The effective number of decks (the exponential of the Shannon entropy).
    A term [proportion * Math.log(proportion)] without a finite logarithm is
    NaN also for the proportion 0, and NaN stays through the sum and the
    exponential. *)
Definition calculateDiversityIndex (decks : list Api.Deck) : option Q :=
  let totalShare := fold_left (fun sum d => sum + Api.share d) decks 0 in
  if Qeq_bool totalShare 0 then Some 0
  else
    let diversity :=
      fold_left
        (fun (sum : option Q) deck =>
           match sum, Js.div (Api.share deck) totalShare with
           | Some sum, Some proportion =>
               match Math_log proportion with
               | Some logarithm => Some (sum - proportion * logarithm)
               | None => None
               end
           | _, _ => None
           end)
        decks (Some 0) in
    option_map Math_exp diversity.

End WithLogarithm.

End DataStorage.

(** ** The deck optimiser

    With exact numbers; the constructor and the expected win rate in
    doubles are in [Ieee.Optimizer]. *)

Module Optimizer.
Import Api.

(** [Map<string, Map<string, number>>]. *)
Definition Matchups : Type := list (string * list (string * Q)).

Record DeckOptimizer : Type := {
  decks : list Deck;
  matchups : Matchups;
  environmentCoverage : Q
}.

Definition calculateEnvironmentCoverage (decks : list Deck) : Q :=
  fold_left (fun sum deck => sum + share deck) decks 0.

(** The constructor: the deck array is sorted by share, and the coverage is
    computed once from the sorted array. *)
Definition new (decks : list Deck) (matchups : Matchups) : DeckOptimizer :=
  let sorted := Js.sort (fun a b => share b - share a) decks in
  {| decks := sorted;
     matchups := matchups;
     environmentCoverage := calculateEnvironmentCoverage sorted |}.

Definition calculateExpectedWinRate (this : DeckOptimizer) (deckName : string) : Q :=
  match find (fun d => String.eqb (name d) deckName) (decks this) with
  | None => 0
  | Some deck =>
      let acc :=
        fold_left
          (fun (acc : Q * Q) opponent =>
             if String.eqb (name opponent) deckName then acc
             else
               let matchupData := Js.Map_get (matchups this) deckName in
               let winRateVsOpponent :=
                 match matchupData with
                 | Some m =>
                     match Js.Map_get m (name opponent) with
                     | Some r => r
                     | None => winRate deck
                     end
                 | None => winRate deck
                 end in
               let weight := share opponent in
               (fst acc + winRateVsOpponent * weight, snd acc + weight))
          (decks this) (0, 0) in
      let remainingShare := 100 - environmentCoverage this in
      let acc :=
        if Js.gtb remainingShare 0
        then (fst acc + winRate deck * remainingShare, snd acc + remainingShare)
        else acc in
      let weightedWinRate := fst acc in
      let totalWeight := snd acc in
      if Js.gtb totalWeight 0 then weightedWinRate / totalWeight else winRate deck
  end.

Definition getTier (expectedWinRate : Q) : string :=
  if Js.geb expectedWinRate 57.0 then "SS (環境支配)"
  else if Js.geb expectedWinRate 55.0 then "S (最強候補)"
  else if Js.geb expectedWinRate 53.0 then "A+ (実用最強)"
  else if Js.geb expectedWinRate 51.0 then "A (実用可能)"
  else if Js.geb expectedWinRate 49.0 then "B (条件付き採用)"
  else "C (非推奨)".

Definition calculateConfidence (deck : Deck) : Q :=
  let estimatedMatches := wins deck + losses deck + ties deck in
  if Js.geb estimatedMatches 1000 then 1.0
  else if Js.geb estimatedMatches 500 then 0.9
  else if Js.geb estimatedMatches 200 then 0.8
  else if Js.geb estimatedMatches 100 then 0.7
  else if Js.geb estimatedMatches 50 then 0.6
  else 0.5.

Section WithRuntime.
Context {rt : JsRuntime}.

(** The entry ["name (rate%)"] of a strengths or weaknesses list. *)
Definition matchupEntry (opponentName : string) (winRate : Q) : string :=
  (opponentName ++ " (" ++ toFixed winRate 1 ++ "%)")%string.

Definition analyzeMatchups (this : DeckOptimizer) (deckName : string)
  : list string * list string :=
  match Js.Map_get (matchups this) deckName with
  | None => ([], [])
  | Some matchupData =>
      let majorDecks := filter (fun d => Js.geb (share d) 3.0) (decks this) in
      fold_left
        (fun (acc : list string * list string) opponent =>
           match Js.Map_get matchupData (name opponent) with
           | None => acc
           | Some winRate =>
               if Js.geb winRate 60
               then (fst acc ++ [matchupEntry (name opponent) winRate], snd acc)
               else if Qle_bool winRate 40
               then (fst acc, snd acc ++ [matchupEntry (name opponent) winRate])
               else acc
           end)
        majorDecks ([], [])
  end.

Definition calculateStability (this : DeckOptimizer) (deckName : string) : Q :=
  match Js.Map_get (matchups this) deckName with
  | None => 0.5
  | Some matchupData =>
      match matchupData with
      | [] => 0.5
      | _ =>
          let winRates := map snd matchupData in
          let mean := fold_left Qplus winRates 0 / Js.len winRates in
          let variance :=
            fold_left (fun sum rate => sum + (rate - mean) ^ 2) winRates 0
            / Js.len winRates in
          let stdDev := Math_sqrt variance in
          Js.Math_max 0 (Js.Math_min 1 (1 - stdDev / 20))
      end
  end.

(** The body of the loop of [analyzeAllDecks]: the analysis of one deck. *)
Definition analyzeDeck (this : DeckOptimizer) (deck : Deck) : DeckAnalysis :=
  let expectedWinRate := calculateExpectedWinRate this (name deck) in
  let sw := analyzeMatchups this (name deck) in
  {| Api.deck := deck;
     expectedWinRate := expectedWinRate;
     tier := getTier expectedWinRate;
     confidenceLevel := calculateConfidence deck;
     stability := calculateStability this (name deck);
     weaknesses := snd sw;
     strengths := fst sw;
     recommendation := None |}.

(** [analyzeAllDecks] as a method: it returns the ranked list together with
    the receiver as the call leaves it.  No statement of the method or of
    its callees assigns a field of the receiver or changes one of its
    arrays or maps; the only array sorted in place is the local one. *)
Definition analyzeAllDecks (this : DeckOptimizer) : list DeckAnalysis * DeckOptimizer :=
  let analyses := map (analyzeDeck this) (decks this) in
  (Js.sort (fun a b => expectedWinRate b - expectedWinRate a) analyses, this).

End WithRuntime.

Definition getFavorableMatchups (this : DeckOptimizer) (deckName : string)
  : list (string * Q) :=
  match Js.Map_get (matchups this) deckName with
  | None => []
  | Some m =>
      Js.slice 0 3
        (Js.sort (fun a b => snd b - snd a)
           (filter (fun e => Js.geb (snd e) 55) m))
  end.

Definition getUnfavorableMatchups (this : DeckOptimizer) (deckName : string)
  : list (string * Q) :=
  match Js.Map_get (matchups this) deckName with
  | None => []
  | Some m =>
      Js.slice 0 3
        (Js.sort (fun a b => snd a - snd b)
           (filter (fun e => Qle_bool (snd e) 45) m))
  end.

(** The tier levels that [formatTierList] walks through, and the decks it
    lists under one of them: [analyses.filter(a => a.tier.startsWith(tierLevel
    + ' '))]. *)
Definition tiers : list string := ["SS"; "S"; "A+"; "A"; "B"; "C"]%string.

Definition tierDecks (analyses : list DeckAnalysis) (tierLevel : string)
  : list DeckAnalysis :=
  filter (fun a => String.prefix (tierLevel ++ " ") (tier a)) analyses.

(** *** Lineup recommendation, with object identity *)

(** An object together with its address; [===] on objects compares
    addresses only. *)
Record Obj (A : Type) : Type := { addr : nat; val : A }.
Arguments addr {A} _.
Arguments val {A} _.

Definition same_object {A B : Type} (a : Obj A) (b : Obj B) : bool :=
  Nat.eqb (addr a) (addr b).

(** [a !== b] where [b] may be [null]. *)
Definition differs_from {A B : Type} (a : Obj A) (b : option (Obj B)) : bool :=
  match b with
  | None => true
  | Some b => negb (same_object a b)
  end.

(** The object literal [{ ...baseMain, confidence, favorableMatchups,
    unfavorableMatchups }]: the fields of [baseMain] are copied into it. *)
Record MainAnalysis : Type := {
  base : DeckAnalysis;
  confidence : Q;
  favorableMatchups : list (string * Q);
  unfavorableMatchups : list (string * Q)
}.

Record TournamentLineup : Type := {
  main : Obj MainAnalysis;
  sub : option (Obj DeckAnalysis);
  meta : option (Obj DeckAnalysis)
}.

(** The elements of the array [analyses] are distinct objects: the one at
    index [i] gets address [i]. *)
Definition allocate (analyses : list DeckAnalysis) : list (Obj DeckAnalysis) :=
  map (fun ia => {| addr := fst ia; val := snd ia |})
      (combine (seq 0 (List.length analyses)) analyses).

(** [main.weaknesses.some(weakness => ...)] for one candidate. *)
Definition coversWeakness (main : MainAnalysis) (analysis : DeckAnalysis) : bool :=
  Js.some
    (fun weakness =>
       let weakDeck := Js.firstToken weakness in
       Js.some (fun strength => Js.includes weakDeck strength) (strengths analysis))
    (weaknesses (base main)).

(** The body of [recommendTournamentLineup] after [analyses] is known.
    [None] is the TypeError raised by [baseMain.confidenceLevel] when the
    array is empty.  The object literal is allocated at the first address
    that no element of [analyses] uses. *)
Definition recommendFrom (this : DeckOptimizer) (analyses : list DeckAnalysis)
  : option TournamentLineup :=
  let objs := allocate analyses in
  match objs with
  | [] => None
  | baseMain :: _ =>
      let main :=
        {| addr := List.length objs;
           val := {| base := val baseMain;
                     confidence := Js.Math_round (confidenceLevel (val baseMain) * 100);
                     favorableMatchups := getFavorableMatchups this (name (deck (val baseMain)));
                     unfavorableMatchups := getUnfavorableMatchups this (name (deck (val baseMain))) |} |} in
      let sub :=
        find (fun analysis =>
                coversWeakness (val main) (val analysis)
                && Js.geb (expectedWinRate (val analysis)) 51)
             (Js.slice 1 10 objs) in
      let meta :=
        find (fun a =>
                Js.ltb (share (deck (val a))) 5
                && Js.geb (expectedWinRate (val a)) 53
                && negb (same_object a main)
                && differs_from a sub)
             objs in
      Some {| main := main; sub := sub; meta := meta |}
  end.

Definition recommendTournamentLineup {rt : JsRuntime} (this : DeckOptimizer)
  : option TournamentLineup * DeckOptimizer :=
  let (analyses, this) := analyzeAllDecks this in
  (recommendFrom this analyses, this).

End Optimizer.

(** ** analyzer/advanced.ts *)

Module AdvancedMetaAnalyzer.
Import Api.

Definition formsCycle (deck1 deck2 deck3 : DeckAnalysis) : bool :=
  let deck1BeatsDeck2 :=
    Js.some (fun s => Js.includes (name (deck deck2)) s) (strengths deck1) in
  let deck2BeatsDeck3 :=
    Js.some (fun s => Js.includes (name (deck deck3)) s) (strengths deck2) in
  let deck3BeatsDeck1 :=
    Js.some (fun s => Js.includes (name (deck deck1)) s) (strengths deck3) in
  deck1BeatsDeck2 && deck2BeatsDeck3 && deck3BeatsDeck1.

Definition calculateCycleStrength (deck1 deck2 deck3 : DeckAnalysis) : Q :=
  let totalShare := share (deck deck1) + share (deck deck2) + share (deck deck3) in
  let avgWinRate :=
    (expectedWinRate deck1 + expectedWinRate deck2 + expectedWinRate deck3) / 3 in
  totalShare * (avgWinRate / 100).

(** The decks that [detectMetaCycles] looks at. *)
Definition majorDecks (analyses : list DeckAnalysis) : list DeckAnalysis :=
  Js.slice 0 20 (filter (fun a => Js.geb (share (deck a)) 3.0) analyses).

(** The three nested loops of [detectMetaCycles]: the cycles in the order
    they are pushed. *)
Definition cyclesFound (majorDecks : list DeckAnalysis) : list MetaCycle :=
  Js.forEachWithRest
    (fun deck1 after1 =>
       Js.forEachWithRest
         (fun deck2 after2 =>
            flat_map
              (fun deck3 =>
                 if formsCycle deck1 deck2 deck3
                 then [{| cycle_decks :=
                            [name (deck deck1); name (deck deck2); name (deck deck3)];
                          strength := calculateCycleStrength deck1 deck2 deck3 |}]
                 else [])
              after2)
         after1)
    majorDecks.

Definition detectMetaCycles (analyses : list DeckAnalysis) : list MetaCycle :=
  Js.sort (fun a b => strength b - strength a) (cyclesFound (majorDecks analyses)).

Definition recommendBySkillLevel (analyses : list DeckAnalysis)
  : SkillBasedRecommendation :=
  {| beginner :=
       Js.slice 0 3
         (filter (fun a =>
                    Js.gtb (stability a) 0.7
                    && Js.geb (expectedWinRate a) 51
                    && Js.geb (share (deck a)) 5)
                 analyses);
     intermediate :=
       Js.slice 0 5
         (filter (fun a =>
                    Js.geb (expectedWinRate a) 53
                    && Js.geb (confidenceLevel a) 0.6)
                 analyses);
     expert :=
       Js.slice 0 3
         (filter (fun a =>
                    Js.ltb (share (deck a)) 5
                    && Js.geb (expectedWinRate a) 55
                    && Js.gtb (stability a) 0.5)
                 analyses) |}.

(** Simpson's diversity index.  The divisions are the checked ones, so a
    non-finite result shows as [None]. *)
Definition calculateDiversityIndex (decks : list Deck) : option Q :=
  let totalShare := fold_left (fun sum d => sum + share d) decks 0 in
  if Qeq_bool totalShare 0 then Some 0
  else
    let simpsonIndex :=
      fold_left
        (fun (sum : option Q) d =>
           match sum, Js.div (share d) totalShare with
           | Some sum, Some proportion => Some (sum + proportion * proportion)
           | _, _ => None
           end)
        decks (Some 0) in
    option_map (fun simpsonIndex => 1 - simpsonIndex) simpsonIndex.

(** [trends.get(name).push(share)], after [trends.set(name, [])] when the
    name is new: a new key goes to the end of the map. *)
Fixpoint pushShare (trends : list (string * list Q)) (deckName : string) (s : Q)
  : list (string * list Q) :=
  match trends with
  | [] => [(deckName, [s])]
  | (k, shares) :: rest =>
      if String.eqb k deckName then (k, shares ++ [s]) :: rest
      else (k, shares) :: pushShare rest deckName s
  end.

Definition analyzeTrends (historicalData : list TimeSeries) : list (string * list Q) :=
  fold_left
    (fun trends dataPoint =>
       fold_left (fun trends deck => pushShare trends (name deck) (share deck))
                 (decks dataPoint) trends)
    historicalData [].

(** The closed form of the slope, evaluated exactly; its value in doubles is
    [Ieee.AdvancedMetaAnalyzer.calculateSlope]. *)
Definition calculateSlope (values : list Q) : Q :=
  if Nat.ltb (List.length values) 2 then 0
  else
    let n := Js.len values in
    let sumX := (n * (n - 1)) / 2 in
    let sumY := fold_left (fun sum val => sum + val) values 0 in
    let sumXY :=
      fold_left (fun sum iv => sum + inject_Z (Z.of_nat (fst iv)) * snd iv)
                (combine (seq 0 (List.length values)) values) 0 in
    let sumX2 := (n * (n - 1) * (2 * n - 1)) / 6 in
    (n * sumXY - sumX * sumY) / (n * sumX2 - sumX * sumX).

(** [shares[i] >= bound], which is false when [shares[i]] is undefined. *)
Definition at_least (shares : list Q) (i : nat) (bound : Q) : bool :=
  match nth_error shares i with
  | Some v => Js.geb v bound
  | None => false
  end.

Record Scored : Type := { scored_name : string; slope : Q }.

(** The loop of [identifyRisingDecks]: the qualifying decks, in the order of
    the map. *)
Definition risingCandidates (trends : list (string * list Q)) : list Scored :=
  fold_left
    (fun risingDecks entry =>
       let deckName := fst entry in
       let shares := snd entry in
       if Nat.ltb (List.length shares) 2 then risingDecks
       else
         let slope := calculateSlope shares in
         if Js.gtb slope 0.1 && at_least shares (List.length shares - 1) 3.0
         then risingDecks ++ [{| scored_name := deckName; slope := slope |}]
         else risingDecks)
    trends [].

Definition identifyRisingDecks (trends : list (string * list Q)) : list string :=
  map scored_name
    (Js.slice 0 5 (Js.sort (fun a b => slope b - slope a) (risingCandidates trends))).

(** The loop of [identifyDecliningDecks]; the stored slope is the magnitude. *)
Definition decliningCandidates (trends : list (string * list Q)) : list Scored :=
  fold_left
    (fun decliningDecks entry =>
       let deckName := fst entry in
       let shares := snd entry in
       if Nat.ltb (List.length shares) 2 then decliningDecks
       else
         let slope := calculateSlope shares in
         if Js.ltb slope (- 0.1) && at_least shares 0 5.0
         then decliningDecks ++ [{| scored_name := deckName; slope := Qabs slope |}]
         else decliningDecks)
    trends [].

Definition identifyDecliningDecks (trends : list (string * list Q)) : list string :=
  map scored_name
    (Js.slice 0 5 (Js.sort (fun a b => slope b - slope a) (decliningCandidates trends))).

Definition calculatePredictionConfidence (historicalData : list TimeSeries) : Q :=
  let dataPoints := List.length historicalData in
  if Nat.leb 10 dataPoints then 0.9
  else if Nat.leb 5 dataPoints then 0.7
  else if Nat.leb 3 dataPoints then 0.5
  else 0.3.

Definition predictMetaEvolution (historicalData : list TimeSeries) : MetaPrediction :=
  if Nat.ltb (List.length historicalData) 2
  then {| risingDecks := [];
          decliningDecks := [];
          prediction_confidenceLevel := 0 |}
  else
    let trends := analyzeTrends historicalData in
    let risingDecks := identifyRisingDecks trends in
    let decliningDecks := identifyDecliningDecks trends in
    {| risingDecks := risingDecks;
       decliningDecks := decliningDecks;
       prediction_confidenceLevel := calculatePredictionConfidence historicalData |}.

End AdvancedMetaAnalyzer.

(** ** The advanced meta analysis (normalised Shannon index) *)

Module AdvancedMetaAnalysis.

Record DeckData : Type := {
  name : string;
  share : Q;
  winRate : Q;
  matchups : list (string * Q);
  tier : string;
  metaScore : Q;
  placement : Q
}.

(** [calculateCounterPlayIndex], as a function of the field [decks];
    [Object.values(deck.matchups)] are the values of the association list. *)
Definition calculateCounterPlayIndex (decks : list DeckData) : Q :=
  let counts :=
    fold_left
      (fun (acc : Q * Q) deck =>
         fold_left
           (fun (acc : Q * Q) winRate =>
              let totalMatchups := snd acc + 1 in
              if Js.geb winRate 65 || Qle_bool winRate 35
              then (fst acc + 1, totalMatchups)
              else (fst acc, totalMatchups))
           (map snd (matchups deck)) acc)
      decks (0, 0) in
  let hardCounters := fst counts in
  let totalMatchups := snd counts in
  let counterIndex :=
    if Js.gtb totalMatchups 0 then (hardCounters / totalMatchups) * 100 else 0 in
  Js.Math_round (counterIndex * 100) / 100.

Definition findHiddenGems (decks : list DeckData) : list DeckData :=
  Js.slice 0 3
    (filter (fun deck =>
               Js.ltb (share deck) 8
               && Js.gtb (metaScore deck) 52
               && Qle_bool (placement deck) (Js.len decks * 0.6))
            decks).

Section WithRuntime.
Context {rt : JsRuntime}.

(** [calculateDiversityIndex] of the class, as a function of its field
    [decks].  The division by [maxDiversity] is guarded by the conditional;
    the one by [totalShare] is the checked one. *)
Definition calculateDiversityIndex (decks : list DeckData) : option Q :=
  let totalShare := fold_left (fun sum deck => sum + share deck) decks 0 in
  if Qeq_bool totalShare 0 then Some 0
  else
    let diversity :=
      fold_left
        (fun (diversity : option Q) deck =>
           if Js.gtb (share deck) 0
           then
             match diversity, Js.div (share deck) totalShare with
             | Some diversity, Some proportion =>
                 Some (diversity - proportion * Math_log2 proportion)
             | _, _ => None
             end
           else diversity)
        decks (Some 0) in
    let maxDiversity := Math_log2 (Js.len decks) in
    let normalizedDiversity :=
      if Js.gtb maxDiversity 0
      then
        match diversity with
        | Some diversity =>
            option_map (fun q => q * 100) (Js.div diversity maxDiversity)
        | None => None
        end
      else Some 0 in
    option_map (fun n => Js.Math_round (n * 100) / 100) normalizedDiversity.

End WithRuntime.

End AdvancedMetaAnalysis.

(** ** The arithmetic of the code

    The functions whose result is an arithmetic value that the caller
    compares, divides or reports (the running sum of the coverage
    selection, the expected win rate, the slope of a trend) are given here
    on the numbers of the language, the IEEE 754 binary64 values, with its
    rounded [+], [-], [*] and [/] and its comparisons.  A decimal literal
    is the double nearest to it, as in the source. *)

Module Ieee.
Local Open Scope float_scope.

(** [x > y] and [x >= y]; both are false when an operand is NaN. *)
Definition gtb (x y : float) : bool := y <? x.
Definition geb (x y : float) : bool := y <=? x.

(** A length or an index as a number; the conversion is exact below
    [2^53], and an array has fewer than [2^32] elements. *)
Definition of_nat (n : nat) : float := PrimFloat.of_uint63 (Uint63.of_Z (Z.of_nat n)).

(** [l.length]. *)
Definition len {A : Type} (l : list A) : float := of_nat (List.length l).

(** [Array.prototype.sort(cmp)]: [x] goes behind [y] when the comparator
    gives a positive number and stays in front of it otherwise (NaN counts
    as [+0]), so equal elements keep their order. *)
Fixpoint insert {A : Type} (cmp : A -> A -> float) (x : A) (l : list A) : list A :=
  match l with
  | [] => [x]
  | y :: l' => if gtb (cmp x y) 0 then y :: insert cmp x l' else x :: l
  end.

Definition sort {A : Type} (cmp : A -> A -> float) (l : list A) : list A :=
  fold_right (insert cmp) [] l.

(** [Deck] and [TimeSeries] of api/types.ts. *)
Record Deck : Type := {
  rank : float;
  name : string;
  count : float;
  share : float;
  score : string;
  winRate : float;
  wins : float;
  losses : float;
  ties : float
}.

Record TimeSeries : Type := {
  date : string;
  decks : list Deck
}.

(** *** utils/coverage.ts *)

Module Coverage.

(** The [for ... of] loop of [selectDecksByCoverage]: every visited deck is
    pushed, and the loop is left right after the push that brings
    [cumulativeShare] to the target. *)
Fixpoint selectLoop (targetCoverage : float) (sortedDecks : list Deck)
  (cumulativeShare : float) : list Deck :=
  match sortedDecks with
  | [] => []
  | deck :: rest =>
      let cumulativeShare := cumulativeShare + share deck in
      if geb cumulativeShare targetCoverage
      then [deck]
      else deck :: selectLoop targetCoverage rest cumulativeShare
  end.

Definition selectDecksByCoverage (decks : list Deck) (targetCoverage : float)
  : list Deck :=
  match decks with
  | [] => []
  | _ =>
      let sortedDecks := sort (fun a b => share b - share a) decks in
      selectLoop targetCoverage sortedDecks 0
  end.

End Coverage.

(** *** The constructor and the expected win rate of [DeckOptimizer] *)

Module Optimizer.

(** [Map<string, Map<string, number>>]. *)
Definition Matchups : Type := list (string * list (string * float)).

Record DeckOptimizer : Type := {
  decks : list Deck;
  matchups : Matchups;
  environmentCoverage : float
}.

Definition calculateEnvironmentCoverage (decks : list Deck) : float :=
  fold_left (fun sum deck => sum + share deck) decks 0.

Definition new (decks : list Deck) (matchups : Matchups) : DeckOptimizer :=
  let sorted := sort (fun a b => share b - share a) decks in
  {| decks := sorted;
     matchups := matchups;
     environmentCoverage := calculateEnvironmentCoverage sorted |}.

Definition calculateExpectedWinRate (this : DeckOptimizer) (deckName : string) : float :=
  match find (fun d => String.eqb (name d) deckName) (decks this) with
  | None => 0
  | Some deck =>
      let acc :=
        fold_left
          (fun (acc : float * float) opponent =>
             if String.eqb (name opponent) deckName then acc
             else
               let matchupData := Js.Map_get (matchups this) deckName in
               let winRateVsOpponent :=
                 match matchupData with
                 | Some m =>
                     match Js.Map_get m (name opponent) with
                     | Some r => r
                     | None => winRate deck
                     end
                 | None => winRate deck
                 end in
               let weight := share opponent in
               (fst acc + winRateVsOpponent * weight, snd acc + weight))
          (decks this) (0, 0) in
      let remainingShare := 100 - environmentCoverage this in
      let acc :=
        if gtb remainingShare 0
        then (fst acc + winRate deck * remainingShare, snd acc + remainingShare)
        else acc in
      let weightedWinRate := fst acc in
      let totalWeight := snd acc in
      if gtb totalWeight 0 then weightedWinRate / totalWeight else winRate deck
  end.

End Optimizer.

(** *** The trend predictor of analyzer/advanced.ts *)

Module AdvancedMetaAnalyzer.

Fixpoint pushShare (trends : list (string * list float)) (deckName : string) (s : float)
  : list (string * list float) :=
  match trends with
  | [] => [(deckName, [s])]
  | (k, shares) :: rest =>
      if String.eqb k deckName then (k, shares ++ [s]) :: rest
      else (k, shares) :: pushShare rest deckName s
  end.

Definition analyzeTrends (historicalData : list TimeSeries)
  : list (string * list float) :=
  fold_left
    (fun trends dataPoint =>
       fold_left (fun trends deck => pushShare trends (name deck) (share deck))
                 (Ieee.decks dataPoint) trends)
    historicalData [].

Definition calculateSlope (values : list float) : float :=
  if Nat.ltb (List.length values) 2 then 0
  else
    let n := len values in
    let sumX := (n * (n - 1)) / 2 in
    let sumY := fold_left (fun sum val => sum + val) values 0 in
    let sumXY :=
      fold_left (fun sum iv => sum + of_nat (fst iv) * snd iv)
                (combine (seq 0 (List.length values)) values) 0 in
    let sumX2 := (n * (n - 1) * (2 * n - 1)) / 6 in
    (n * sumXY - sumX * sumY) / (n * sumX2 - sumX * sumX).

(** [shares[i] >= bound], which is false when [shares[i]] is undefined. *)
Definition at_least (shares : list float) (i : nat) (bound : float) : bool :=
  match nth_error shares i with
  | Some v => geb v bound
  | None => false
  end.

Record Scored : Type := { scored_name : string; slope : float }.

(** The loop of [identifyRisingDecks]: the qualifying decks, in the order of
    the map. *)
Definition risingCandidates (trends : list (string * list float)) : list Scored :=
  fold_left
    (fun risingDecks entry =>
       let deckName := fst entry in
       let shares := snd entry in
       if Nat.ltb (List.length shares) 2 then risingDecks
       else
         let slope := calculateSlope shares in
         if gtb slope 0.1 && at_least shares (List.length shares - 1) 3.0
         then risingDecks ++ [{| scored_name := deckName; slope := slope |}]
         else risingDecks)
    trends [].

Definition identifyRisingDecks (trends : list (string * list float)) : list string :=
  map scored_name
    (Js.slice 0 5 (sort (fun a b => slope b - slope a) (risingCandidates trends))).

(** The loop of [identifyDecliningDecks]; the stored slope is the magnitude. *)
Definition decliningCandidates (trends : list (string * list float)) : list Scored :=
  fold_left
    (fun decliningDecks entry =>
       let deckName := fst entry in
       let shares := snd entry in
       if Nat.ltb (List.length shares) 2 then decliningDecks
       else
         let slope := calculateSlope shares in
         if (slope <? - 0.1) && at_least shares 0 5.0
         then decliningDecks ++ [{| scored_name := deckName; slope := abs slope |}]
         else decliningDecks)
    trends [].

Definition identifyDecliningDecks (trends : list (string * list float)) : list string :=
  map scored_name
    (Js.slice 0 5 (sort (fun a b => slope b - slope a) (decliningCandidates trends))).

End AdvancedMetaAnalyzer.

End Ieee.

(** ** Reference notions

    What the statements below compare the code with. *)

Module Spec.

(** The comparator [(a, b) => key(b) - key(a)], and the order it sorts into. *)
Definition byKeyDesc {A : Type} (key : A -> Q) (a b : A) : Q := key b - key a.
Definition descending {A : Type} (key : A -> Q) (a b : A) : Prop := key b <= key a.

(** [l] is [sorted] put in descending order of [key]. *)
Definition sorted_by {A : Type} (key : A -> Q) (l sorted : list A) : Prop :=
  Permutation l sorted /\ StronglySorted (descending key) sorted.

(** [f] summed over the elements of [l]. *)
Definition sumOver {A : Type} (f : A -> Q) (l : list A) : Q :=
  fold_right (fun x acc => f x + acc) 0 l.

(** The least-squares slope in the words of the specification: the points
    are the values paired with their positions [0 .. n-1], and the slope is
    [(n Sxy - Sx Sy) / (n Sxx - Sx Sx)] with every sum taken over the
    points. *)
Definition position (i : nat) : Q := inject_Z (Z.of_nat i).

Definition points (values : list Q) : list (Q * Q) :=
  combine (map position (seq 0 (List.length values))) values.

Definition olsDivisor (values : list Q) : Q :=
  let pts := points values in
  let n := Js.len pts in
  let Sx := sumOver fst pts in
  let Sxx := sumOver (fun p => fst p * fst p) pts in
  n * Sxx - Sx * Sx.

Definition olsSlope (values : list Q) : Q :=
  let pts := points values in
  let n := Js.len pts in
  let Sx := sumOver fst pts in
  let Sy := sumOver snd pts in
  let Sxy := sumOver (fun p => fst p * snd p) pts in
  (n * Sxy - Sx * Sy) / olsDivisor values.

(** The classification in the words of the specification, for the shares
    of one deck across the snapshots. *)
Definition rising (shares : list Q) : Prop :=
  (2 <= List.length shares)%nat
  /\ 0.1 < olsSlope shares
  /\ exists latest, nth_error shares (List.length shares - 1) = Some latest
                    /\ 3.0 <= latest.

Definition declining (shares : list Q) : Prop :=
  (2 <= List.length shares)%nat
  /\ olsSlope shares < - 0.1
  /\ exists first, nth_error shares 0 = Some first /\ 5.0 <= first.

(** What a lookup gives after shares have been pushed for a name. *)
Definition extended (o : option (list Q)) (vs : list Q) : option (list Q) :=
  match vs with
  | [] => o
  | _ => Some (match o with Some l => l | None => [] end ++ vs)
  end.

(** The shares of the decks named [n] among [ds], in order. *)
Definition sharesOf (n : string) (ds : list Api.Deck) : list Q :=
  map Api.share (filter (fun d => String.eqb (Api.name d) n) ds).

(** [g 0 + g 1 + ... + g (n - 1)]: the number of results of a loop whose
    body, run on an element with [k] elements after it, gives at most [g k]
    results. *)
Fixpoint sumTo (g : nat -> nat) (n : nat) : nat :=
  match n with
  | O => O
  | S n => (g n + sumTo g n)%nat
  end.

End Spec.

(** ** Reference notions for the arithmetic of the code

    The same comparisons, with every sum taken in doubles, from 0, in the
    order of the list it runs over. *)

Module IeeeSpec.
Import Ieee.
Local Open Scope float_scope.

(** [a] may stand in front of [b] in descending order of [key]: the
    difference [key b - key a], which is what the comparator
    [(a, b) => key(b) - key(a)] gives, is not positive. *)
Definition descending {A : Type} (key : A -> float) (a b : A) : Prop :=
  gtb (key b - key a) 0 = false.

(** The shares of the decks added one after another. *)
Definition runningSum (decks : list Deck) : float :=
  fold_left (fun sum deck => sum + share deck) decks 0.

(** The expected win rate in the words of the specification. *)
Definition others (D : Deck) (field : list Deck) : list Deck :=
  filter (fun O => negb (String.eqb (name O) (name D))) field.

Definition rateAgainst (matchups : Optimizer.Matchups) (D O : Deck) : float :=
  match Js.Map_get matchups (name D) with
  | Some row =>
      match Js.Map_get row (name O) with
      | Some r => r
      | None => winRate D
      end
  | None => winRate D
  end.

Definition remaining (field : list Deck) : float := 100 - runningSum field.

Definition weightedSum (matchups : Optimizer.Matchups) (D : Deck) (field : list Deck)
  : float :=
  let sum :=
    fold_left (fun sum O => sum + rateAgainst matchups D O * share O)
              (others D field) 0 in
  if gtb (remaining field) 0 then sum + winRate D * remaining field else sum.

Definition totalWeight (D : Deck) (field : list Deck) : float :=
  let sum := fold_left (fun sum O => sum + share O) (others D field) 0 in
  if gtb (remaining field) 0 then sum + remaining field else sum.

(** The classification of the shares of one deck, with the slope as the
    code computes it. *)
Definition rising (shares : list float) : Prop :=
  (2 <= List.length shares)%nat
  /\ gtb (AdvancedMetaAnalyzer.calculateSlope shares) 0.1 = true
  /\ exists latest, nth_error shares (List.length shares - 1) = Some latest
                    /\ geb latest 3.0 = true.

Definition declining (shares : list float) : Prop :=
  (2 <= List.length shares)%nat
  /\ (AdvancedMetaAnalyzer.calculateSlope shares <? - 0.1) = true
  /\ exists first, nth_error shares 0 = Some first /\ geb first 5.0 = true.

End IeeeSpec.

(** ** Inputs of the worked examples *)

Module Examples.

(** A deck with the given name, share and win rate and nothing else. *)
Definition deckOf (n : string) (s w : Q) : Api.Deck :=
  {| Api.rank := 0; Api.name := n; Api.count := 0; Api.share := s;
     Api.score := ""; Api.winRate := w; Api.wins := 0; Api.losses := 0;
     Api.ties := 0 |}.

(** The field and the matchup table of the worked example: against [b] the
    deck [a] has an entry, against [c] it has none, and the shares leave 20
    percent of the field uncovered. *)
Definition exampleField : list Api.Deck :=
  [deckOf "c" 10 50; deckOf "a" 40 55; deckOf "b" 30 48].

Definition exampleMatchups : Optimizer.Matchups :=
  [("a"%string, [("b"%string, 60)])].

(** Four snapshots in which the deck [x] has the shares 2, 3, 4 and 5. *)
Definition risingHistory : list Api.TimeSeries :=
  [{| Api.date := "w1"; Api.decks := [deckOf "x" 2 50] |};
   {| Api.date := "w2"; Api.decks := [deckOf "x" 3 50] |};
   {| Api.date := "w3"; Api.decks := [deckOf "x" 4 50] |};
   {| Api.date := "w4"; Api.decks := [deckOf "x" 5 50] |}].

(** A host to run the definitions on: [toFixed] is decimal rounding (ties
    away from zero), while the square root and the logarithm, which have
    no exact rational value in general, are taken on the integer part and
    rounded down. *)
Fixpoint zeros (k : nat) : string :=
  match k with
  | O => EmptyString
  | S k => String "0" (zeros k)
  end.

Definition toFixedQ (x : Q) (f : nat) : string :=
  let n := Qfloor (Qabs x * inject_Z (10 ^ Z.of_nat f) + (1 # 2)) in
  let digits := NilZero.string_of_uint (N.to_uint (Z.to_N n)) in
  let padded := (zeros (S f - String.length digits) ++ digits)%string in
  let k := (String.length padded - f)%nat in
  ((if Js.ltb x 0 then "-" else "")
   ++ substring 0 k padded
   ++ match f with
      | O => ""
      | _ => "." ++ substring k f padded
      end)%string.

Definition exampleRuntime : JsRuntime :=
  {| Math_sqrt := fun q => inject_Z (Z.sqrt (Qfloor q));
     Math_log2 := fun q => inject_Z (Z.log2 (Qfloor q));
     toFixed := toFixedQ |}.

(** A logarithm to run the storage layer's diversity index on: defined on
    the positive numbers only, with the integer part of the base-2
    logarithm of the integer part as its value. *)
Definition exampleLog (q : Q) : option Q :=
  if Qle_bool q 0 then None else Some (inject_Z (Z.log2 (Qfloor q))).

(** A field with a deck that nobody plays. *)
Definition fieldWithUnplayedDeck : list Api.Deck :=
  [deckOf "a" 60 55; deckOf "b" 40 48; deckOf "u" 0 50].

(** A field of one deck that holds the whole share. *)
Definition soleDeck : list Api.Deck := [deckOf "a" 100 50].

Definition soleDeckData : list AdvancedMetaAnalysis.DeckData :=
  [{| AdvancedMetaAnalysis.name := "a";
      AdvancedMetaAnalysis.share := 100;
      AdvancedMetaAnalysis.winRate := 50;
      AdvancedMetaAnalysis.matchups := [];
      AdvancedMetaAnalysis.tier := "A";
      AdvancedMetaAnalysis.metaScore := 50;
      AdvancedMetaAnalysis.placement := 1 |}].

(** A field whose best deck by expected win rate is a little-played one,
    with no matchup data. *)
Definition hiddenGemField : list Api.Deck :=
  [deckOf "top" 40 50; deckOf "gem" 4 60].

(** An analysis with the given deck, expected win rate, strengths and
    weaknesses. *)
Definition analysisOf (d : Api.Deck) (rate : Q) (ss ws : list string)
  : Api.DeckAnalysis :=
  {| Api.deck := d;
     Api.expectedWinRate := rate;
     Api.tier := Optimizer.getTier rate;
     Api.confidenceLevel := 0.9;
     Api.stability := 0.8;
     Api.weaknesses := ws;
     Api.strengths := ss;
     Api.recommendation := None |}.

(** A ranking in which the second deck covers the weakness of the first,
    the third and the first beat each other's rivals in a circle, and the
    last one is little played and strong. *)
Definition exampleRanking : list Api.DeckAnalysis :=
  [analysisOf (deckOf "a" 30 55) 58 ["c (61.0%)"%string] ["b (38.0%)"%string];
   analysisOf (deckOf "c" 20 52) 54 ["b (64.0%)"%string] ["a (39.0%)"%string];
   analysisOf (deckOf "b" 25 51) 53.5 ["a (62.0%)"%string] ["c (36.0%)"%string];
   analysisOf (deckOf "g" 4 56) 53 [] []].

Definition exampleOptimizer : Optimizer.DeckOptimizer :=
  Optimizer.new exampleField exampleMatchups.

(** The same inputs in doubles: a deck, a snapshot, and the four decks of
    the coverage example, shares 20, 40, 10 and 30. *)
Definition deckInDoubles (n : string) (s w : float) : Ieee.Deck :=
  {| Ieee.rank := 0; Ieee.name := n; Ieee.count := 0; Ieee.share := s;
     Ieee.score := ""; Ieee.winRate := w; Ieee.wins := 0; Ieee.losses := 0;
     Ieee.ties := 0 |}.




Definition exampleFieldInDoubles : list Ieee.Deck :=
  [deckInDoubles "c" 10 50; deckInDoubles "a" 40 55; deckInDoubles "b" 30 48].

Definition exampleMatchupsInDoubles : Ieee.Optimizer.Matchups :=
  [("a"%string, [("b"%string, 60%float)])].

(** A field without matchup data in which the deck [x] has the win rate
    57, in doubles and in exact numbers. *)
Definition roundingField : list Ieee.Deck :=
  [deckInDoubles "x" 10 57; deckInDoubles "p" 0.1 50; deckInDoubles "q" 0.1 50].

Definition roundingFieldExact : list Api.Deck :=
  [deckOf "x" 10 57; deckOf "p" 0.1 50; deckOf "q" 0.1 50].




End Examples.
Import Spec Examples.

(** * Properties *)

(** ** Comparisons *)

Lemma geb_true (x y : Q) : Js.geb x y = true <-> y <= x.
Proof. unfold Js.geb. apply Qle_bool_iff. Qed.

Lemma geb_false (x y : Q) : Js.geb x y = false <-> x < y.
Proof.
  unfold Js.geb. rewrite <- not_true_iff_false, Qle_bool_iff.
  split; intro H; [apply Qnot_le_lt | apply Qlt_not_le]; exact H.
Qed.

Lemma ltb_true (x y : Q) : Js.ltb x y = true <-> x < y.
Proof.
  unfold Js.ltb. rewrite negb_true_iff. apply (geb_false x y).
Qed.

Lemma ltb_false (x y : Q) : Js.ltb x y = false <-> y <= x.
Proof.
  unfold Js.ltb. rewrite negb_false_iff. apply (geb_true x y).
Qed.

Lemma gtb_true (x y : Q) : Js.gtb x y = true <-> y < x.
Proof. unfold Js.gtb. apply ltb_true. Qed.

Lemma gtb_false (x y : Q) : Js.gtb x y = false <-> x <= y.
Proof. unfold Js.gtb. apply ltb_false. Qed.

(** Case analysis on the first comparison of the goal, leaving its meaning
    as a hypothesis. *)
Ltac cmp_case :=
  match goal with
  | |- context [Js.geb ?a ?b] =>
      let E := fresh "E" in
      destruct (Js.geb a b) eqn:E;
      [apply geb_true in E | apply geb_false in E]
  | |- context [Js.gtb ?a ?b] =>
      let E := fresh "E" in
      destruct (Js.gtb a b) eqn:E;
      [apply gtb_true in E | apply gtb_false in E]
  | |- context [Js.ltb ?a ?b] =>
      let E := fresh "E" in
      destruct (Js.ltb a b) eqn:E;
      [apply ltb_true in E | apply ltb_false in E]
  end.

(** ** The sort *)

Section Sort.
Context {A : Type} (key : A -> Q).

Lemma insert_perm (cmp : A -> A -> Q) (x : A) (l : list A) :
  Permutation (x :: l) (Js.insert cmp x l).
Proof.
  induction l as [|y l IH]; simpl.
  - apply Permutation_refl.
  - destruct (Qle_bool (cmp x y) 0).
    + apply Permutation_refl.
    + eapply perm_trans; [apply perm_swap | apply perm_skip, IH].
Qed.

Lemma sort_perm (cmp : A -> A -> Q) (l : list A) :
  Permutation l (Js.sort cmp l).
Proof.
  induction l as [|x l IH]; simpl.
  - apply perm_nil.
  - eapply perm_trans; [apply perm_skip, IH | apply insert_perm].
Qed.

Lemma insert_hdrel (x y : A) (l : list A) :
  descending key y x -> HdRel (descending key) y l ->
  HdRel (descending key) y (Js.insert (byKeyDesc key) x l).
Proof.
  intros Hyx Hl. destruct l as [|z l]; simpl.
  - constructor. exact Hyx.
  - destruct (Qle_bool (byKeyDesc key x z) 0); constructor.
    + exact Hyx.
    + inversion Hl; assumption.
Qed.

Lemma insert_sorted (x : A) (l : list A) :
  Sorted (descending key) l -> Sorted (descending key) (Js.insert (byKeyDesc key) x l).
Proof.
  induction 1 as [|y l Hs IH Hhd]; simpl.
  - repeat constructor.
  - destruct (Qle_bool (byKeyDesc key x y) 0) eqn:E.
    + apply Qle_bool_iff in E. unfold byKeyDesc in E.
      constructor; [constructor; assumption|].
      constructor. unfold descending. lra.
    + apply not_true_iff_false in E. rewrite Qle_bool_iff in E.
      unfold byKeyDesc in E.
      constructor; [exact IH|].
      apply insert_hdrel; [|exact Hhd].
      unfold descending. lra.
Qed.

Lemma sort_sorted (l : list A) :
  Sorted (descending key) (Js.sort (byKeyDesc key) l).
Proof.
  induction l as [|x l IH]; simpl.
  - constructor.
  - apply insert_sorted, IH.
Qed.

Lemma sort_strongly_sorted (l : list A) :
  StronglySorted (descending key) (Js.sort (byKeyDesc key) l).
Proof.
  apply Sorted_StronglySorted; [|apply sort_sorted].
  intros a b c Hab Hbc. unfold descending in *. lra.
Qed.

Lemma sort_sorted_by (l : list A) : sorted_by key l (Js.sort (byKeyDesc key) l).
Proof. split; [apply sort_perm | apply sort_strongly_sorted]. Qed.

End Sort.

(** ** The sort in doubles *)

(** The sign that a rounded number gets is the sign that was asked for. *)
Lemma binary_round_sign (s : bool) (m : positive) (e : Z) :
  SFltb (S754_zero false) (binary_round prec emax s m e) = true -> s = false.
Proof.
  unfold binary_round, binary_round_aux.
  destruct (shl_align m e _) as [mz ez].
  destruct (shr_fexp prec emax (Z.pos mz) ez loc_Exact) as [mrs' e'].
  destruct (shr_fexp prec emax _ e' loc_Exact) as [mrs'' e''].
  destruct (shr_m mrs''); [| destruct (Z.leb e'' _) |]; destruct s; simpl;
    intro H; try reflexivity; discriminate H.
Qed.

Lemma binary_normalize_sign (m : Z) (e : Z) :
  SFltb (S754_zero false) (binary_normalize prec emax m e false) = true ->
  SFltb (S754_zero false) (binary_normalize prec emax (- m)%Z e false) = false.
Proof.
  destruct m as [|p|p]; simpl.
  - discriminate.
  - intros _. apply not_true_iff_false. intro H.
    apply binary_round_sign in H. discriminate H.
  - intro H. apply binary_round_sign in H. discriminate H.
Qed.

Lemma SFsub_positive_asym (X Y : spec_float) :
  SFltb (S754_zero false) (SFsub prec emax X Y) = true ->
  SFltb (S754_zero false) (SFsub prec emax Y X) = false.
Proof.
  destruct X as [sx|sx| |sx mx ex], Y as [sy|sy| |sy my ey];
    try (destruct sx; try destruct sy; simpl; try discriminate; reflexivity);
    try (destruct sy; simpl; try discriminate; reflexivity);
    try (simpl; discriminate).
  cbv beta iota delta [SFsub]. cbv zeta.
  replace (IntDef.Z.min ey ex) with (IntDef.Z.min ex ey) by apply Z.min_comm.
  match goal with
  | |- SFltb _ (binary_normalize _ _ (IntDef.Z.sub ?a ?b) _ _) = true -> _ =>
      replace (IntDef.Z.sub b a) with (- (a - b))%Z
        by (change IntDef.Z.sub with Z.sub; lia);
      apply binary_normalize_sign
  end.
Qed.

(** In doubles too, [x - y] and [y - x] are not both positive. *)
Lemma sub_positive_asym (x y : float) :
  Ieee.gtb (x - y)%float 0 = true -> Ieee.gtb (y - x)%float 0 = false.
Proof.
  unfold Ieee.gtb. rewrite !ltb_spec, !sub_spec.
  change (Prim2SF 0%float) with (S754_zero false).
  apply SFsub_positive_asym.
Qed.

Lemma Sorted_firstn {A : Type} (R : A -> A -> Prop) (n : nat) (l : list A) :
  Sorted R l -> Sorted R (firstn n l).
Proof.
  intro H. revert n. induction H as [|x l Hs IH Hhd]; intro n.
  - rewrite firstn_nil. constructor.
  - destruct n as [|n]; simpl; [constructor|].
    constructor; [apply IH|].
    destruct Hhd as [|y l' Hxy]; [rewrite firstn_nil; constructor|].
    destruct n; simpl; constructor. exact Hxy.
Qed.

Section IeeeSort.
Local Open Scope float_scope.
Context {A : Type}.

Lemma ieee_insert_perm (cmp : A -> A -> float) (x : A) (l : list A) :
  Permutation (x :: l) (Ieee.insert cmp x l).
Proof.
  induction l as [|y l IH]; simpl.
  - apply Permutation_refl.
  - destruct (Ieee.gtb (cmp x y) 0).
    + eapply perm_trans; [apply perm_swap | apply perm_skip, IH].
    + apply Permutation_refl.
Qed.

Lemma ieee_sort_perm (cmp : A -> A -> float) (l : list A) :
  Permutation l (Ieee.sort cmp l).
Proof.
  induction l as [|x l IH]; simpl.
  - apply perm_nil.
  - eapply perm_trans; [apply perm_skip, IH | apply ieee_insert_perm].
Qed.

Context (key : A -> float).

Lemma ieee_insert_sorted (x : A) (l : list A) :
  Sorted (IeeeSpec.descending key) l ->
  Sorted (IeeeSpec.descending key) (Ieee.insert (fun a b => key b - key a) x l).
Proof.
  induction 1 as [|y l Hs IH Hhd]; simpl.
  - repeat constructor.
  - destruct (Ieee.gtb (key y - key x) 0) eqn:E.
    + apply sub_positive_asym in E.
      constructor; [exact IH|].
      destruct l as [|z l]; simpl.
      * constructor. exact E.
      * destruct (Ieee.gtb (key z - key x) 0); constructor.
        -- inversion Hhd; assumption.
        -- exact E.
    + constructor; [constructor; assumption|].
      constructor. exact E.
Qed.

Lemma ieee_sort_sorted (l : list A) :
  Sorted (IeeeSpec.descending key) (Ieee.sort (fun a b => key b - key a) l).
Proof.
  induction l as [|x l IH]; simpl.
  - constructor.
  - apply ieee_insert_sorted, IH.
Qed.

(** Sorting a list that is in order leaves it as it is. *)
Lemma ieee_sort_of_sorted (l : list A) :
  Sorted (IeeeSpec.descending key) l ->
  Ieee.sort (fun a b => key b - key a) l = l.
Proof.
  induction 1 as [|x l Hs IH Hhd]; [reflexivity|].
  simpl. rewrite IH. destruct Hhd as [|y l' Hxy]; [reflexivity|].
  simpl. unfold IeeeSpec.descending in Hxy. rewrite Hxy. reflexivity.
Qed.

End IeeeSort.

(** ** Coverage selection *)

Section CoverageFacts.
Import Ieee.

(** The loop returns a prefix: the first one, counted from [1], at which the
    running sum reaches the target, or everything. *)
Lemma selectLoop_prefix (t : float) (l : list Deck) :
  forall c : float,
  exists k : nat,
    Coverage.selectLoop t l c = firstn k l
    /\ (k <= List.length l)%nat
    /\ (l <> [] -> (1 <= k)%nat)
    /\ (forall j, (1 <= j < k)%nat ->
          geb (fold_left (fun sum deck => (sum + share deck)%float) (firstn j l) c) t
          = false)
    /\ (geb (fold_left (fun sum deck => (sum + share deck)%float) (firstn k l) c) t
        = true
        \/ k = List.length l).
Proof.
  induction l as [|d l IH]; intro c.
  - exists 0%nat. simpl. repeat split; auto; try lia. congruence.
  - simpl. destruct (geb (c + share d) t) eqn:E.
    + exists 1%nat. simpl. repeat split; try lia. left. exact E.
    + destruct (IH (c + share d)%float) as (k & Hk & Hlen & _ & Hbelow & Hend).
      exists (S k). simpl. rewrite Hk. repeat split; try lia.
      * intros j Hj. destruct j as [|j]; [lia|]. simpl.
        destruct j as [|j]; [exact E|].
        apply Hbelow. lia.
      * destruct Hend as [Hend | Hend]; [left; exact Hend | right; lia].
Qed.

End CoverageFacts.

(** ** C5 *)



(** ** C6 *)

(** C6. Both tier classifiers scan the same thresholds, highest first, each
    inclusive on its lower bound: 57 gives SS, 55 gives S, 53 gives A+, 51
    gives A, 49 gives B, and anything below gives C.  The storage layer
    returns the bare label; the optimiser returns the label followed by a
    description, and the label is its first word.  Exactly 57.0 is SS and
    56.999 is S. *)
Theorem C6_getTier_thresholds :
  forall x : Q,
    (57 <= x -> DataStorage.getTier x = "SS"%string)
    /\ (55 <= x < 57 -> DataStorage.getTier x = "S"%string)
    /\ (53 <= x < 55 -> DataStorage.getTier x = "A+"%string)
    /\ (51 <= x < 53 -> DataStorage.getTier x = "A"%string)
    /\ (49 <= x < 51 -> DataStorage.getTier x = "B"%string)
    /\ (x < 49 -> DataStorage.getTier x = "C"%string)
    /\ Js.firstToken (Optimizer.getTier x) = DataStorage.getTier x
    /\ DataStorage.getTier 57.0 = "SS"%string
    /\ DataStorage.getTier 56.999 = "S"%string
    /\ Optimizer.getTier 57.0 = "SS (環境支配)"%string
    /\ Optimizer.getTier 56.999 = "S (最強候補)"%string.
Proof.
  intro x.
  repeat match goal with |- _ /\ _ => split end;
    try (vm_compute; reflexivity);
    try (intro H; unfold DataStorage.getTier;
         repeat (cmp_case; try lra); reflexivity).
  unfold DataStorage.getTier, Optimizer.getTier.
  assert (E57 : Js.geb x 57.0 = Js.geb x 57) by (apply Qleb_comp; reflexivity).
  assert (E55 : Js.geb x 55.0 = Js.geb x 55) by (apply Qleb_comp; reflexivity).
  assert (E53 : Js.geb x 53.0 = Js.geb x 53) by (apply Qleb_comp; reflexivity).
  assert (E51 : Js.geb x 51.0 = Js.geb x 51) by (apply Qleb_comp; reflexivity).
  assert (E49 : Js.geb x 49.0 = Js.geb x 49) by (apply Qleb_comp; reflexivity).
  rewrite E57, E55, E53, E51, E49.
  destruct (Js.geb x 57); [reflexivity|].
  destruct (Js.geb x 55); [reflexivity|].
  destruct (Js.geb x 53); [reflexivity|].
  destruct (Js.geb x 51); [reflexivity|].
  destruct (Js.geb x 49); reflexivity.
Qed.

(** ** C4 *)

Lemma find_absent {A : Type} (p : A -> bool) (l : list A) :
  (forall x, In x l -> p x = false) -> find p l = None.
Proof.
  induction l as [|x l IH]; intro H; simpl; [reflexivity|].
  rewrite (H x (or_introl eq_refl)). apply IH.
  intros y Hy. apply H. right. exact Hy.
Qed.

(** C4. For a deck name that no deck of the field carries,
    [calculateExpectedWinRate] returns 0: the lookup fails and the method
    leaves with the value 0, no exception is involved. *)
Theorem C4_absent_deck_gives_zero :
  forall (this : Optimizer.DeckOptimizer) (deckName : string),
    (forall d, In d (Optimizer.decks this) -> Api.name d <> deckName) ->
    Optimizer.calculateExpectedWinRate this deckName = 0.
Proof.
  intros this deckName Habsent. unfold Optimizer.calculateExpectedWinRate.
  rewrite find_absent; [reflexivity|].
  intros d Hd. apply String.eqb_neq. apply Habsent, Hd.
Qed.

Lemma C4_absent_deck_witness :
  Optimizer.calculateExpectedWinRate
    (Optimizer.new [deckOf "a" 60 55; deckOf "b" 30 48] []) "z" = 0.
Proof.
  apply C4_absent_deck_gives_zero.
  intros d Hd. vm_compute in Hd.
  destruct Hd as [<- | [<- | []]]; discriminate.
Defined.

(** ** C2 *)

(** C2, as the code has it. With fewer than two snapshots
    [predictMetaEvolution] leaves through its guard: both lists are empty
    and the confidence level is 0, which is not one of the bands of
    [calculatePredictionConfidence]; that function is not consulted. *)
Theorem C2_short_history_prediction :
  forall historicalData : list Api.TimeSeries,
    (List.length historicalData < 2)%nat ->
    AdvancedMetaAnalyzer.predictMetaEvolution historicalData
    = {| Api.risingDecks := [];
         Api.decliningDecks := [];
         Api.prediction_confidenceLevel := 0 |}.
Proof.
  intros h Hlen. unfold AdvancedMetaAnalyzer.predictMetaEvolution.
  apply Nat.ltb_lt in Hlen. rewrite Hlen. reflexivity.
Qed.

Lemma C2_short_history_witness :
  AdvancedMetaAnalyzer.predictMetaEvolution
    [{| Api.date := "2025-01-06"; Api.decks := [deckOf "a" 60 55] |}]
  = {| Api.risingDecks := [];
       Api.decliningDecks := [];
       Api.prediction_confidenceLevel := 0 |}.
Proof.
  apply C2_short_history_prediction. simpl. lia.
Defined.

(** The confidence level returned for the empty history is 0, not 0.3. *)
Lemma C2_confidence_is_not_lowest_band :
  exists historicalData : list Api.TimeSeries,
    (List.length historicalData <= 1)%nat
    /\ Api.prediction_confidenceLevel
         (AdvancedMetaAnalyzer.predictMetaEvolution historicalData) == 0
    /\ ~ Api.prediction_confidenceLevel
           (AdvancedMetaAnalyzer.predictMetaEvolution historicalData) == 0.3.
Proof.
  exists []. split; [simpl; lia|]. split.
  - reflexivity.
  - simpl. intro H. discriminate H.
Qed.

(** ** Sums *)

Lemma sumOver_nonneg {A : Type} (f : A -> Q) (l : list A) :
  (forall x, In x l -> 0 <= f x) -> 0 <= sumOver f l.
Proof.
  induction l as [|x l IH]; intro H; simpl.
  - lra.
  - assert (0 <= f x) by (apply H; left; reflexivity).
    assert (0 <= sumOver f l) by (apply IH; intros y Hy; apply H; right; exact Hy).
    lra.
Qed.

(** ** C3 *)

Section ExpectedWinRate.
Import Ieee.
Local Open Scope float_scope.

Lemma find_by_name (l : list Deck) (D : Deck) :
  NoDup (map name l) -> In D l ->
  find (fun d => String.eqb (name d) (name D)) l = Some D.
Proof.
  induction l as [|x l IH]; intros Hnd Hin; [destruct Hin|].
  simpl in *. inversion Hnd as [|? ? Hx Hnd']; subst.
  destruct (String.eqb (name x) (name D)) eqn:E.
  - apply String.eqb_eq in E. destruct Hin as [-> | Hin]; [reflexivity|].
    exfalso. apply Hx. rewrite E. apply in_map, Hin.
  - apply String.eqb_neq in E. destruct Hin as [-> | Hin]; [congruence|].
    apply IH; assumption.
Qed.

(** The loop over the opponents adds, in the order of the field, what the
    two sums of the specification add. *)
Lemma opponents_loop (matchups : Optimizer.Matchups) (D : Deck) (l : list Deck) :
  forall acc : float * float,
    fold_left
      (fun (acc : float * float) opponent =>
         if String.eqb (name opponent) (name D) then acc
         else
           let matchupData := Js.Map_get matchups (name D) in
           let winRateVsOpponent :=
             match matchupData with
             | Some m =>
                 match Js.Map_get m (name opponent) with
                 | Some r => r
                 | None => winRate D
                 end
             | None => winRate D
             end in
           let weight := share opponent in
           (fst acc + winRateVsOpponent * weight, snd acc + weight))
      l acc
    = (fold_left (fun sum O => sum + IeeeSpec.rateAgainst matchups D O * share O)
                 (IeeeSpec.others D l) (fst acc),
       fold_left (fun sum O => sum + share O) (IeeeSpec.others D l) (snd acc)).
Proof.
  induction l as [|O l IH]; intro acc; simpl.
  - destruct acc; reflexivity.
  - destruct (String.eqb (name O) (name D)) eqn:E; simpl.
    + apply IH.
    + rewrite IH. reflexivity.
Qed.

End ExpectedWinRate.

(** C3. For decks with distinct names and one of them, [D], let the field be
    the deck list of the optimiser built on them: the decks in descending
    order of share.  [calculateExpectedWinRate] returns the weighted sum
    divided by the total weight when the total weight is positive, and the
    win rate of [D] otherwise, in particular when the total weight is 0.
    Every other deck [O] of the field contributes [matchups[D][O]], or the
    win rate of [D] when that entry is absent, with weight [O.share], and a
    positive [remaining = 100 - sum of all shares] contributes the win rate
    of [D] with weight [remaining].  Every sum and the quotient are taken
    in doubles, the terms added one after another from 0 in the order of
    the field; the result is the weighted average up to the rounding of
    these operations: a deck with the win rate 57, the share 10 and no
    matchup data gets 56.99999999999999 beside two decks of share 0.1. *)
Theorem C3_expected_win_rate_in_doubles :
  forall (decks : list Ieee.Deck) (matchups : Ieee.Optimizer.Matchups) (D : Ieee.Deck),
    NoDup (map Ieee.name decks) ->
    In D decks ->
    let this := Ieee.Optimizer.new decks matchups in
    let field := Ieee.Optimizer.decks this in
    let result := Ieee.Optimizer.calculateExpectedWinRate this (Ieee.name D) in
    Permutation decks field
    /\ Sorted (IeeeSpec.descending Ieee.share) field
    /\ result
       = (if Ieee.gtb (IeeeSpec.totalWeight D field) 0
          then (IeeeSpec.weightedSum matchups D field / IeeeSpec.totalWeight D field)%float
          else Ieee.winRate D)
    /\ (Ieee.gtb (IeeeSpec.totalWeight D field) 0 = true ->
        result
        = (IeeeSpec.weightedSum matchups D field / IeeeSpec.totalWeight D field)%float)
    /\ (IeeeSpec.totalWeight D field = 0%float -> result = Ieee.winRate D)
    /\ Ieee.Optimizer.calculateExpectedWinRate (Ieee.Optimizer.new roundingField []) "x"
       = 56.99999999999999%float.
Proof.
  intros decks matchups D Hnd Hin this field result.
  assert (Hperm : Permutation decks field) by apply ieee_sort_perm.
  assert (Hfind : find (fun d => String.eqb (Ieee.name d) (Ieee.name D)) field = Some D).
  { apply find_by_name.
    - eapply Permutation_NoDup; [apply Permutation_map, Hperm | exact Hnd].
    - eapply Permutation_in; [exact Hperm | exact Hin]. }
  assert (Hres : result
                 = (if Ieee.gtb (IeeeSpec.totalWeight D field) 0
                    then (IeeeSpec.weightedSum matchups D field
                          / IeeeSpec.totalWeight D field)%float
                    else Ieee.winRate D)).
  { unfold result, Ieee.Optimizer.calculateExpectedWinRate.
    fold field. rewrite Hfind.
    change (Ieee.Optimizer.matchups this) with matchups.
    change (Ieee.Optimizer.environmentCoverage this) with (IeeeSpec.runningSum field).
    pose proof (opponents_loop matchups D field (0%float, 0%float)) as Hloop.
    unfold IeeeSpec.weightedSum, IeeeSpec.totalWeight, IeeeSpec.remaining.
    cbv zeta in Hloop |- *. rewrite Hloop. cbn [fst snd].
    destruct (Ieee.gtb (100 - IeeeSpec.runningSum field) 0); reflexivity. }
  split; [exact Hperm|].
  split; [apply (ieee_sort_sorted Ieee.share)|].
  split; [exact Hres|].
  split; [|split].
  - intro Hpos. rewrite Hres, Hpos. reflexivity.
  - intro Hzero. rewrite Hres, Hzero. reflexivity.
  - vm_compute. reflexivity.
Qed.

(** The worked example: 60 against [b] (share 30), the fallback 55 against
    [c] (share 10) and 55 for the uncovered 20 percent. *)
Lemma C3_expected_win_rate_in_doubles_witness :
  let D := deckInDoubles "a" 40 55 in
  let this := Ieee.Optimizer.new exampleFieldInDoubles exampleMatchupsInDoubles in
  let field := Ieee.Optimizer.decks this in
  let result := Ieee.Optimizer.calculateExpectedWinRate this "a" in
  Permutation exampleFieldInDoubles field
  /\ Sorted (IeeeSpec.descending Ieee.share) field
  /\ result
     = (if Ieee.gtb (IeeeSpec.totalWeight D field) 0
        then (IeeeSpec.weightedSum exampleMatchupsInDoubles D field
              / IeeeSpec.totalWeight D field)%float
        else 55%float)
  /\ (Ieee.gtb (IeeeSpec.totalWeight D field) 0 = true ->
      result
      = (IeeeSpec.weightedSum exampleMatchupsInDoubles D field
         / IeeeSpec.totalWeight D field)%float)
  /\ (IeeeSpec.totalWeight D field = 0%float -> result = 55%float)
  /\ Ieee.Optimizer.calculateExpectedWinRate (Ieee.Optimizer.new roundingField []) "x"
     = 56.99999999999999%float.
Proof.
  apply (C3_expected_win_rate_in_doubles
           exampleFieldInDoubles exampleMatchupsInDoubles (deckInDoubles "a" 40 55)).
  - repeat constructor; simpl; intuition discriminate.
  - simpl. auto.
Defined.

(** The deck [x] has the win rate 57 and no matchup data, so every term of
    its weighted average is 57, and so is the average; the code returns
    56.99999999999999. *)
Lemma C3_rounded_average_differs :
  (57 * 0.1 + 57 * 0.1 + 57 * (100 - (10 + 0.1 + 0.1)))
  / (0.1 + 0.1 + (100 - (10 + 0.1 + 0.1))) == 57
  /\ Optimizer.calculateExpectedWinRate (Optimizer.new roundingFieldExact []) "x" == 57
  /\ Ieee.Optimizer.calculateExpectedWinRate (Ieee.Optimizer.new roundingField []) "x"
     = 56.99999999999999%float
  /\ (56.99999999999999 <? 57)%float = true.
Proof.
  split; [vm_compute; reflexivity|].
  split; [vm_compute; reflexivity|].
  split; vm_compute; reflexivity.
Qed.

(** ** The trend predictor *)

Section Trend.
Import Api AdvancedMetaAnalyzer.

Lemma position_succ (i : nat) : position (S i) == position i + 1.
Proof.
  unfold position. rewrite Nat2Z.inj_succ. unfold Z.succ.
  rewrite inject_Z_plus. reflexivity.
Qed.

Lemma len_cons {A : Type} (x : A) (l : list A) : Js.len (x :: l) == Js.len l + 1.
Proof. apply (position_succ (List.length l)). Qed.

Lemma points_length (values : list Q) :
  List.length (points values) = List.length values.
Proof.
  unfold points. rewrite length_combine, length_map, length_seq. lia.
Qed.

(** The sums over the points [s, s+1, ...] paired with [l]. *)
Lemma sum_positions (l : list Q) :
  forall s : nat,
    sumOver fst (combine (map position (seq s (List.length l))) l)
    == Js.len l * position s + Js.len l * (Js.len l - 1) / 2.
Proof.
  induction l as [|v l IH]; intro s.
  - simpl. unfold Js.len. simpl. field.
  - change (List.length (v :: l)) with (S (List.length l)).
    simpl seq. simpl map. simpl combine. simpl sumOver.
    rewrite IH, len_cons, position_succ. field.
Qed.

Lemma sum_squared_positions (l : list Q) :
  forall s : nat,
    sumOver (fun p => fst p * fst p)
            (combine (map position (seq s (List.length l))) l)
    == Js.len l * position s * position s
       + position s * Js.len l * (Js.len l - 1)
       + Js.len l * (Js.len l - 1) * (2 * Js.len l - 1) / 6.
Proof.
  induction l as [|v l IH]; intro s.
  - simpl. unfold Js.len. simpl. field.
  - change (List.length (v :: l)) with (S (List.length l)).
    simpl seq. simpl map. simpl combine. simpl sumOver.
    rewrite IH, len_cons, position_succ. field.
Qed.

Lemma sum_values (l : list Q) :
  forall (s : nat) (c : Q),
    fold_left (fun sum val => sum + val) l c
    == c + sumOver snd (combine (map position (seq s (List.length l))) l).
Proof.
  induction l as [|v l IH]; intros s c.
  - simpl. ring.
  - change (List.length (v :: l)) with (S (List.length l)).
    simpl. rewrite (IH (S s)). ring.
Qed.

Lemma sum_products (l : list Q) :
  forall (s : nat) (c : Q),
    fold_left (fun sum iv => sum + inject_Z (Z.of_nat (fst iv)) * snd iv)
              (combine (seq s (List.length l)) l) c
    == c + sumOver (fun p => fst p * snd p)
                   (combine (map position (seq s (List.length l))) l).
Proof.
  induction l as [|v l IH]; intros s c.
  - simpl. ring.
  - change (List.length (v :: l)) with (S (List.length l)).
    simpl. rewrite (IH (S s)). unfold position. ring.
Qed.



Lemma points_len (values : list Q) : Js.len (points values) = Js.len values.
Proof. unfold Js.len. rewrite points_length. reflexivity. Qed.

(** The divisor of the least-squares formula is the one that
    [calculateSlope] computes from the closed forms. *)
Lemma olsDivisor_closed_form (values : list Q) :
  olsDivisor values
  == Js.len values * (Js.len values * (Js.len values - 1) * (2 * Js.len values - 1) / 6)
     - Js.len values * (Js.len values - 1) / 2 * (Js.len values * (Js.len values - 1) / 2).
Proof.
  unfold olsDivisor. cbv zeta. rewrite points_len. unfold points.
  rewrite (sum_positions values 0), (sum_squared_positions values 0).
  unfold position. simpl Z.of_nat. field.
Qed.


Lemma calculateSlope_ols (values : list Q) :
  (2 <= List.length values)%nat ->
  calculateSlope values == olsSlope values.
Proof.
  intro Hlen. unfold calculateSlope, olsSlope.
  assert (E : Nat.ltb (List.length values) 2 = false) by (apply Nat.ltb_ge; lia).
  rewrite E. cbv zeta. rewrite points_len.
  apply Qdiv_comp.
  - unfold points.
    rewrite (sum_values values 0 0), (sum_products values 0 0).
    rewrite (sum_positions values 0).
    unfold position. simpl Z.of_nat. ring.
  - rewrite olsDivisor_closed_form. reflexivity.
Qed.

(** *** The candidates *)

Lemma at_least_true (shares : list Q) (i : nat) (bound : Q) :
  at_least shares i bound = true
  <-> exists v, nth_error shares i = Some v /\ bound <= v.
Proof.
  unfold at_least. destruct (nth_error shares i) as [v|].
  - rewrite geb_true. split.
    + intro H. exists v. split; [reflexivity | exact H].
    + intros (v' & Hv & H). inversion Hv; subst. exact H.
  - split; [discriminate | intros (v & Hv & _); discriminate].
Qed.

Lemma risingCandidates_filter (trends : list (string * list Q)) :
  risingCandidates trends
  = map (fun e => {| scored_name := fst e; slope := calculateSlope (snd e) |})
        (filter (fun e =>
                   negb (Nat.ltb (List.length (snd e)) 2)
                   && (Js.gtb (calculateSlope (snd e)) 0.1
                       && at_least (snd e) (List.length (snd e) - 1) 3.0))
                trends).
Proof.
  unfold risingCandidates.
  match goal with
  | |- fold_left ?f _ _ = ?r =>
      enough (H : forall acc, fold_left f trends acc = acc ++ r) by apply (H [])
  end.
  induction trends as [|e trends IH]; intro acc; simpl.
  - symmetry. apply app_nil_r.
  - rewrite IH.
    destruct (Nat.ltb (List.length (snd e)) 2); simpl; [reflexivity|].
    destruct (Js.gtb (calculateSlope (snd e)) 0.1); simpl; [|reflexivity].
    destruct (at_least (snd e) (List.length (snd e) - 1) 3.0); simpl;
      [rewrite <- app_assoc|]; reflexivity.
Qed.

Lemma decliningCandidates_filter (trends : list (string * list Q)) :
  decliningCandidates trends
  = map (fun e => {| scored_name := fst e; slope := Qabs (calculateSlope (snd e)) |})
        (filter (fun e =>
                   negb (Nat.ltb (List.length (snd e)) 2)
                   && (Js.ltb (calculateSlope (snd e)) (- 0.1)
                       && at_least (snd e) 0 5.0))
                trends).
Proof.
  unfold decliningCandidates.
  match goal with
  | |- fold_left ?f _ _ = ?r =>
      enough (H : forall acc, fold_left f trends acc = acc ++ r) by apply (H [])
  end.
  induction trends as [|e trends IH]; intro acc; simpl.
  - symmetry. apply app_nil_r.
  - rewrite IH.
    destruct (Nat.ltb (List.length (snd e)) 2); simpl; [reflexivity|].
    destruct (Js.ltb (calculateSlope (snd e)) (- 0.1)); simpl; [|reflexivity].
    destruct (at_least (snd e) 0 5.0); simpl;
      [rewrite <- app_assoc|]; reflexivity.
Qed.

(** A deck is among the rising candidates exactly when its shares are
    rising, and likewise for the declining ones. *)
Lemma rising_candidate_iff (trends : list (string * list Q)) (c : Scored) :
  In c (risingCandidates trends)
  <-> exists shares,
        In (scored_name c, shares) trends
        /\ slope c = calculateSlope shares
        /\ rising shares.
Proof.
  rewrite risingCandidates_filter, in_map_iff. split.
  - intros ([n shares] & <- & Hin). apply filter_In in Hin.
    destruct Hin as [Hin Hq]. simpl in Hq.
    apply andb_true_iff in Hq. destruct Hq as [Hlen Hq].
    apply andb_true_iff in Hq. destruct Hq as [Hslope Hlast].
    apply negb_true_iff, Nat.ltb_ge in Hlen.
    apply gtb_true in Hslope. apply at_least_true in Hlast.
    exists shares. simpl. repeat split; auto.
    rewrite <- calculateSlope_ols by exact Hlen. exact Hslope.
  - intros (shares & Hin & Hs & Hlen & Hslope & Hlast).
    exists (scored_name c, shares). simpl. split.
    + destruct c as [n sl]. simpl in *. subst sl. reflexivity.
    + apply filter_In. split; [exact Hin|]. simpl.
      rewrite <- calculateSlope_ols in Hslope by exact Hlen.
      apply andb_true_iff. split; [apply negb_true_iff, Nat.ltb_ge, Hlen|].
      apply andb_true_iff. split; [apply gtb_true, Hslope|].
      apply at_least_true, Hlast.
Qed.

Lemma declining_candidate_iff (trends : list (string * list Q)) (c : Scored) :
  In c (decliningCandidates trends)
  <-> exists shares,
        In (scored_name c, shares) trends
        /\ slope c = Qabs (calculateSlope shares)
        /\ declining shares.
Proof.
  rewrite decliningCandidates_filter, in_map_iff. split.
  - intros ([n shares] & <- & Hin). apply filter_In in Hin.
    destruct Hin as [Hin Hq]. simpl in Hq.
    apply andb_true_iff in Hq. destruct Hq as [Hlen Hq].
    apply andb_true_iff in Hq. destruct Hq as [Hslope Hfirst].
    apply negb_true_iff, Nat.ltb_ge in Hlen.
    apply ltb_true in Hslope. apply at_least_true in Hfirst.
    exists shares. simpl. repeat split; auto.
    rewrite <- calculateSlope_ols by exact Hlen. exact Hslope.
  - intros (shares & Hin & Hs & Hlen & Hslope & Hfirst).
    exists (scored_name c, shares). simpl. split.
    + destruct c as [n sl]. simpl in *. subst sl. reflexivity.
    + apply filter_In. split; [exact Hin|]. simpl.
      rewrite <- calculateSlope_ols in Hslope by exact Hlen.
      apply andb_true_iff. split; [apply negb_true_iff, Nat.ltb_ge, Hlen|].
      apply andb_true_iff. split; [apply ltb_true, Hslope|].
      apply at_least_true, Hfirst.
Qed.

Lemma in_firstn {A : Type} (n : nat) (l : list A) (x : A) :
  In x (firstn n l) -> In x l.
Proof.
  intro H. rewrite <- (firstn_skipn n l). apply in_or_app. left. exact H.
Qed.

(** Every reported name is the name of a candidate. *)
Lemma reported_is_candidate (cands : list Scored) (n : string) :
  In n (map scored_name
          (Js.slice 0 5 (Js.sort (fun a b => slope b - slope a) cands))) ->
  exists c, In c cands /\ scored_name c = n.
Proof.
  rewrite in_map_iff. intros (c & Hn & Hin). exists c. split; [|exact Hn].
  unfold Js.slice in Hin. simpl skipn in Hin. apply in_firstn in Hin.
  eapply Permutation_in; [apply Permutation_sym, sort_perm | exact Hin].
Qed.

(** *** The map built by [analyzeTrends] *)

Lemma pushShare_keys (trends : list (string * list Q)) (n : string) (v : Q) (k : string) :
  In k (map fst (pushShare trends n v)) -> In k (map fst trends) \/ k = n.
Proof.
  induction trends as [|[k' shares] trends IH]; simpl.
  - intros [<- | []]. right. reflexivity.
  - destruct (String.eqb k' n); simpl.
    + intros [<- | H]; left; [left | right]; auto.
    + intros [<- | H]; [left; left; reflexivity|].
      destruct (IH H) as [H' | H']; [left; right; exact H' | right; exact H'].
Qed.

Lemma pushShare_NoDup (trends : list (string * list Q)) (n : string) (v : Q) :
  NoDup (map fst trends) -> NoDup (map fst (pushShare trends n v)).
Proof.
  induction trends as [|[k shares] trends IH]; simpl; intro Hnd.
  - repeat constructor. intros [].
  - inversion Hnd as [|? ? Hk Hnd']; subst.
    destruct (String.eqb k n) eqn:E; simpl.
    + constructor; assumption.
    + apply String.eqb_neq in E. constructor; [|apply IH, Hnd'].
      intro H. apply pushShare_keys in H. destruct H as [H | H]; auto.
Qed.

Lemma analyzeTrends_NoDup (historicalData : list TimeSeries) :
  NoDup (map fst (analyzeTrends historicalData)).
Proof.
  unfold analyzeTrends.
  assert (Hstart : NoDup (map fst (@nil (string * list Q)))) by constructor.
  revert Hstart. generalize (@nil (string * list Q)) as trends.
  induction historicalData as [|dataPoint rest IH]; intros trends Hnd; simpl.
  - exact Hnd.
  - apply IH. revert trends Hnd.
    induction (decks dataPoint) as [|d ds IHd]; intros trends Hnd; simpl.
    + exact Hnd.
    + apply IHd, pushShare_NoDup, Hnd.
Qed.

Lemma Map_get_In {V : Type} (m : list (string * V)) (k : string) (v : V) :
  NoDup (map fst m) -> (Js.Map_get m k = Some v <-> In (k, v) m).
Proof.
  unfold Js.Map_get. induction m as [|[k' v'] m IH]; simpl; intro Hnd.
  - split; [discriminate | intros []].
  - inversion Hnd as [|? ? Hk Hnd']; subst.
    destruct (String.eqb k' k) eqn:E; simpl.
    + apply String.eqb_eq in E. subst k'. split.
      * intro H. inversion H; subst. left. reflexivity.
      * intros [H | H]; [inversion H; reflexivity|].
        exfalso. apply Hk. change k with (fst (k, v)). apply in_map, H.
    + apply String.eqb_neq in E. rewrite (IH Hnd'). split.
      * intro H. right. exact H.
      * intros [H | H]; [inversion H; congruence | exact H].
Qed.

End Trend.

(** *** The candidates and the reports in doubles *)

Section IeeeTrend.
Import Ieee Ieee.AdvancedMetaAnalyzer.
Local Open Scope float_scope.











End IeeeTrend.

(** ** C7 *)




(** ** C10 *)




(** ** C8 *)

Section Diversity.

Lemma fold_sum {A : Type} (f : A -> Q) (l : list A) :
  forall c : Q, fold_left (fun sum x => sum + f x) l c == c + sumOver f l.
Proof.
  induction l as [|x l IH]; intro c; simpl.
  - ring.
  - rewrite IH. ring.
Qed.

Lemma total_zero {A : Type} (f : A -> Q) (l : list A) :
  sumOver f l == 0 -> Qeq_bool (fold_left (fun sum x => sum + f x) l 0) 0 = true.
Proof.
  intro H. apply Qeq_bool_iff. rewrite fold_sum, H. ring.
Qed.

Lemma simpson_zero (decks : list Api.Deck) :
  sumOver Api.share decks == 0 \/ (List.length decks <= 1)%nat ->
  exists r, AdvancedMetaAnalyzer.calculateDiversityIndex decks = Some r /\ r == 0.
Proof.
  unfold AdvancedMetaAnalyzer.calculateDiversityIndex. intros [H | H].
  - rewrite (total_zero Api.share decks H). exists 0. split; reflexivity.
  - destruct decks as [|d [|d' decks]]; [| |simpl in H; lia].
    + exists 0. split; reflexivity.
    + cbn [fold_left]. unfold Js.div.
      destruct (Qeq_bool (0 + Api.share d) 0) eqn:E.
      * exists 0. split; reflexivity.
      * apply Qeq_bool_neq in E. eexists. split; [reflexivity|].
        field. intro H0. apply E. rewrite H0. ring.
Qed.

Lemma round_zero : Js.Math_round (0 * 100) / 100 == 0.
Proof. vm_compute. reflexivity. Qed.

Lemma shannon_zero (rt : JsRuntime) (decks : list AdvancedMetaAnalysis.DeckData) :
  Math_log2 1 == 0 ->
  sumOver AdvancedMetaAnalysis.share decks == 0 \/ (List.length decks <= 1)%nat ->
  exists r, AdvancedMetaAnalysis.calculateDiversityIndex decks = Some r /\ r == 0.
Proof.
  unfold AdvancedMetaAnalysis.calculateDiversityIndex. intros Hlog [H | H].
  - rewrite (total_zero AdvancedMetaAnalysis.share decks H).
    exists 0. split; reflexivity.
  - destruct decks as [|d [|d' decks]]; [| |simpl in H; lia].
    + exists 0. split; reflexivity.
    + cbn [fold_left].
      destruct (Qeq_bool (0 + AdvancedMetaAnalysis.share d) 0).
      * exists 0. split; reflexivity.
      * change (Js.len [d]) with 1.
        assert (E : Js.gtb (Math_log2 1) 0 = false) by (apply gtb_false; lra).
        rewrite E. simpl option_map. eexists. split; [reflexivity|].
        apply round_zero.
Qed.

End Diversity.

(** C8. For a field whose shares sum to 0, and for a field of at most one
    deck, the Simpson index of the analyser and the normalised Shannon index
    of the advanced analysis both return a number, and that number is 0: no
    division by zero is reached.  The Shannon index depends on the host for
    [Math.log2(1)], which is 0.  A single deck with a share of 100 gives 0
    for both. *)
Theorem C8_diversity_degenerate_fields :
  forall rt : JsRuntime,
    Math_log2 1 == 0 ->
    (forall decks : list Api.Deck,
       sumOver Api.share decks == 0 \/ (List.length decks <= 1)%nat ->
       exists r, AdvancedMetaAnalyzer.calculateDiversityIndex decks = Some r /\ r == 0)
    /\ (forall decks : list AdvancedMetaAnalysis.DeckData,
          sumOver AdvancedMetaAnalysis.share decks == 0 \/ (List.length decks <= 1)%nat ->
          exists r, AdvancedMetaAnalysis.calculateDiversityIndex decks = Some r /\ r == 0)
    /\ (exists r, AdvancedMetaAnalyzer.calculateDiversityIndex soleDeck = Some r /\ r == 0)
    /\ (exists r, AdvancedMetaAnalysis.calculateDiversityIndex soleDeckData = Some r /\ r == 0).
Proof.
  intros rt Hlog.
  split; [exact simpson_zero|].
  split; [exact (fun decks => shannon_zero rt decks Hlog)|].
  split.
  - apply simpson_zero. right. simpl. lia.
  - apply (shannon_zero rt); [exact Hlog|]. right. simpl. lia.
Qed.

Lemma C8_diversity_witness :
  (exists r, AdvancedMetaAnalyzer.calculateDiversityIndex soleDeck = Some r /\ r == 0)
  /\ (exists r,
        @AdvancedMetaAnalysis.calculateDiversityIndex exampleRuntime soleDeckData = Some r
        /\ r == 0).
Proof.
  assert (Hlog : @Math_log2 exampleRuntime 1 == 0) by (vm_compute; reflexivity).
  destruct (C8_diversity_degenerate_fields exampleRuntime Hlog) as (_ & _ & H1 & H2).
  split; [exact H1 | exact H2].
Defined.

(** ** C1 *)

Section Lineup.
Import Api Optimizer.

Lemma allocate_cons (a : DeckAnalysis) (rest : list DeckAnalysis) :
  allocate (a :: rest)
  = {| addr := 0; val := a |}
    :: map (fun ia => {| addr := fst ia; val := snd ia |})
           (combine (seq 1 (List.length rest)) rest).
Proof. reflexivity. Qed.

(** The objects after the first one have addresses from 1 on. *)
Lemma later_addresses (rest : list DeckAnalysis) (s : nat) (x : Obj DeckAnalysis) :
  In x (map (fun ia => {| addr := fst ia; val := snd ia |})
            (combine (seq s (List.length rest)) rest)) ->
  (s <= addr x)%nat.
Proof.
  rewrite in_map_iff. intros ([i a] & <- & Hin). simpl.
  apply in_combine_l in Hin. apply in_seq in Hin. lia.
Qed.

(** X10. The meta slot, when it is filled, holds an element of [analyses] that
    passes both thresholds and is not the object in the sub slot. *)
Lemma meta_slot_sound (this : DeckOptimizer) (analyses : list DeckAnalysis)
  (lineup : TournamentLineup) (m : Obj DeckAnalysis) :
  recommendFrom this analyses = Some lineup ->
  meta lineup = Some m ->
  In m (allocate analyses)
  /\ share (deck (val m)) < 5
  /\ 53 <= expectedWinRate (val m)
  /\ (forall s, sub lineup = Some s -> addr m <> addr s).
Proof.
  unfold recommendFrom. destruct (allocate analyses) as [|baseMain objs] eqn:E;
    [discriminate|].
  intros Hl Hm. injection Hl as Hl. rewrite <- Hl in Hm |- *. clear Hl.
  match type of Hm with
  | meta {| main := _; sub := _; meta := ?found |} = _ =>
      change (found = Some m) in Hm
  end.
  match type of Hm with
  | (if _ then _ else find ?P _) = _ =>
      destruct (find_some P (baseMain :: objs) Hm) as [Hin Hc]
  end.
  clear Hm.
  repeat (apply andb_true_iff in Hc; destruct Hc as [Hc ?]).
  split; [exact Hin|]. split; [apply ltb_true; assumption|].
  split; [apply geb_true; assumption|].
  cbn [sub]. intros s Hs.
  match goal with
  | H : differs_from m _ = true |- _ =>
      rewrite Hs in H; unfold differs_from, same_object in H;
      apply negb_true_iff, Nat.eqb_neq in H; exact H
  end.
Qed.

(** X11. When the best analysis itself passes both thresholds it fills the meta
    slot: the comparison with [main] never excludes anything, because
    [main] is a new object. *)
Lemma meta_slot_takes_top (this : DeckOptimizer) (a : DeckAnalysis)
  (rest : list DeckAnalysis) :
  share (deck a) < 5 ->
  53 <= expectedWinRate a ->
  exists lineup,
    recommendFrom this (a :: rest) = Some lineup
    /\ base (val (main lineup)) = a
    /\ meta lineup = Some {| addr := 0; val := a |}.
Proof.
  intros Hshare Hrate. unfold recommendFrom. rewrite allocate_cons.
  eexists. split; [reflexivity|]. split; [reflexivity|].
  cbn [meta find val addr].
  apply ltb_true in Hshare. apply geb_true in Hrate.
  rewrite Hshare, Hrate. cbn [andb].
  unfold same_object at 1. cbn [addr List.length Nat.eqb negb andb].
  match goal with
  | |- (if differs_from _ ?s then _ else _) = _ => destruct s as [x|] eqn:Hsub
  end; [|reflexivity].
  apply find_some in Hsub. destruct Hsub as [Hin _].
  unfold Js.slice in Hin. cbn [skipn] in Hin. apply in_firstn in Hin.
  apply later_addresses in Hin.
  unfold differs_from, same_object. cbn [addr].
  destruct (addr x) as [|k]; [lia | reflexivity].
Qed.

End Lineup.

(** C1, where the code departs from it.  In the field [hiddenGemField] the
    deck [gem] has the highest expected win rate, a share below 5 and an
    expected win rate of at least 53.  It is the main deck of the lineup, and
    the meta slot holds it again: the deck of the meta slot is the main
    deck. *)
Theorem C1_meta_slot_repeats_main_deck :
  forall rt : JsRuntime,
  exists lineup metaSlot,
    fst (Optimizer.recommendTournamentLineup (Optimizer.new hiddenGemField []))
    = Some lineup
    /\ Optimizer.meta lineup = Some metaSlot
    /\ Api.deck (Optimizer.val metaSlot)
       = Api.deck (Optimizer.base (Optimizer.val (Optimizer.main lineup)))
    /\ Api.name (Api.deck (Optimizer.val metaSlot)) = "gem"%string
    /\ Optimizer.sub lineup = None.
Proof.
  intro rt. eexists. eexists.
  split; [lazy; reflexivity|].
  repeat split.
Qed.

(** * Further properties of the scoring engine *)

(** ** Confidence and stability *)

Section Scores.
Import Api Optimizer.

(** X1. The confidence of a deck lies between 0.5 and 1, and a deck with at
    least as many recorded games as another has at least its confidence. *)
Theorem calculateConfidence_bounded_monotone :
  forall d1 d2 : Deck,
    (0.5 <= calculateConfidence d1 <= 1)
    /\ (wins d1 + losses d1 + ties d1 <= wins d2 + losses d2 + ties d2 ->
        calculateConfidence d1 <= calculateConfidence d2).
Proof.
  intros d1 d2. unfold calculateConfidence. cbv zeta.
  set (m1 := wins d1 + losses d1 + ties d1).
  set (m2 := wins d2 + losses d2 + ties d2).
  split.
  - repeat cmp_case; split; lra.
  - intro Hle. repeat (cmp_case; try lra).
Qed.

Lemma Math_max_min_clamped (x : Q) :
  0 <= Js.Math_max 0 (Js.Math_min 1 x) <= 1.
Proof.
  unfold Js.Math_max, Js.Math_min.
  destruct (Qle_bool 1 x) eqn:E1.
  - destruct (Qle_bool 0 1) eqn:E0; [lra | discriminate E0].
  - apply not_true_iff_false in E1. rewrite Qle_bool_iff in E1.
    destruct (Qle_bool 0 x) eqn:E0.
    + apply Qle_bool_iff in E0. lra.
    + lra.
Qed.

(** X2. Whatever the host computes for the square root, the stability of a deck
    lies between 0 and 1; for a deck without a row in the matchup table, or
    with an empty one, it is 0.5. *)
Theorem calculateStability_clamped :
  forall (rt : JsRuntime) (this : DeckOptimizer) (deckName : string),
    (0 <= calculateStability this deckName <= 1)
    /\ (Js.Map_get (matchups this) deckName = None
        \/ Js.Map_get (matchups this) deckName = Some [] ->
        calculateStability this deckName = 0.5).
Proof.
  intros rt this deckName. unfold calculateStability.
  destruct (Js.Map_get (matchups this) deckName) as [[|e row]|].
  - split; [split; lra | reflexivity].
  - split; [apply Math_max_min_clamped|].
    intros [H | H]; discriminate H.
  - split; [split; lra | reflexivity].
Qed.

End Scores.

(** ** Matchup profiles *)

Section Profiles.
Import Api Optimizer.
Context {rt : JsRuntime}.

Lemma analyzeMatchups_loop (row : list (string * Q)) (l : list Deck) :
  forall acc : list string * list string,
    fold_left
      (fun (acc : list string * list string) opponent =>
         match Js.Map_get row (name opponent) with
         | None => acc
         | Some winRate =>
             if Js.geb winRate 60
             then (fst acc ++ [matchupEntry (name opponent) winRate], snd acc)
             else if Qle_bool winRate 40
             then (fst acc, snd acc ++ [matchupEntry (name opponent) winRate])
             else acc
         end)
      l acc
    = (fst acc
       ++ flat_map (fun d => match Js.Map_get row (name d) with
                             | Some r => if Js.geb r 60
                                         then [matchupEntry (name d) r] else []
                             | None => []
                             end) l,
       snd acc
       ++ flat_map (fun d => match Js.Map_get row (name d) with
                             | Some r => if Js.geb r 60 then []
                                         else if Qle_bool r 40
                                         then [matchupEntry (name d) r] else []
                             | None => []
                             end) l).
Proof.
  induction l as [|d l IH]; intros [ss ws]; simpl.
  - rewrite !app_nil_r. reflexivity.
  - rewrite IH. destruct (Js.Map_get row (name d)) as [r|]; [|reflexivity].
    destruct (Js.geb r 60); simpl.
    + rewrite <- app_assoc. reflexivity.
    + destruct (Qle_bool r 40); simpl; [rewrite <- app_assoc|]; reflexivity.
Qed.

(** X5. The strengths of a deck are the entries for the decks of the field with
    a share of at least 3 against which its matchup row has a rate of at
    least 60, the weaknesses those with a rate of at most 40; a deck without
    a matchup row has neither. *)
Theorem analyzeMatchups_entries :
  forall (this : DeckOptimizer) (deckName : string),
    (Js.Map_get (matchups this) deckName = None ->
     analyzeMatchups this deckName = ([], []))
    /\ (forall row entry,
          Js.Map_get (matchups this) deckName = Some row ->
          (In entry (fst (analyzeMatchups this deckName))
           <-> exists d r,
                 In d (decks this) /\ 3 <= share d
                 /\ Js.Map_get row (name d) = Some r /\ 60 <= r
                 /\ entry = matchupEntry (name d) r)
          /\ (In entry (snd (analyzeMatchups this deckName))
              <-> exists d r,
                    In d (decks this) /\ 3 <= share d
                    /\ Js.Map_get row (name d) = Some r /\ r <= 40
                    /\ entry = matchupEntry (name d) r)).
Proof.
  intros this deckName. unfold analyzeMatchups. split.
  - intros ->. reflexivity.
  - intros row entry ->. rewrite analyzeMatchups_loop. cbn [fst snd app].
    split; rewrite in_flat_map; split.
    + intros (d & Hd & Hin). apply filter_In in Hd. destruct Hd as [Hd Hs].
      apply geb_true in Hs.
      destruct (Js.Map_get row (name d)) as [r|] eqn:Er; [|destruct Hin].
      destruct (Js.geb r 60) eqn:E; [|destruct Hin].
      apply geb_true in E. destruct Hin as [<- | []].
      exists d, r. repeat split; auto. lra.
    + intros (d & r & Hd & Hs & Er & Hr & ->). exists d. split.
      * apply filter_In. split; [exact Hd|]. apply geb_true. lra.
      * rewrite Er. apply geb_true in Hr. rewrite Hr. left. reflexivity.
    + intros (d & Hd & Hin). apply filter_In in Hd. destruct Hd as [Hd Hs].
      apply geb_true in Hs.
      destruct (Js.Map_get row (name d)) as [r|] eqn:Er; [|destruct Hin].
      destruct (Js.geb r 60) eqn:E; [destruct Hin|].
      destruct (Qle_bool r 40) eqn:E'; [|destruct Hin].
      apply Qle_bool_iff in E'. destruct Hin as [<- | []].
      exists d, r. repeat split; auto. lra.
    + intros (d & r & Hd & Hs & Er & Hr & ->). exists d. split.
      * apply filter_In. split; [exact Hd|]. apply geb_true. lra.
      * rewrite Er.
        assert (E : Js.geb r 60 = false) by (apply geb_false; lra).
        rewrite E. apply Qle_bool_iff in Hr. rewrite Hr. left. reflexivity.
Qed.

End Profiles.

(** The sort only looks at the sign of the comparator. *)
Lemma sort_ext {A : Type} (cmp cmp' : A -> A -> Q) (l : list A) :
  (forall a b, Qle_bool (cmp a b) 0 = Qle_bool (cmp' a b) 0) ->
  Js.sort cmp l = Js.sort cmp' l.
Proof.
  intro H. induction l as [|x l IH]; [reflexivity|].
  simpl. rewrite IH. generalize (Js.sort cmp' l) as s.
  induction s as [|y s IHs]; simpl; [reflexivity|].
  rewrite H, IHs. reflexivity.
Qed.

(** In a list in descending order, split in two, nothing of the second part
    exceeds anything of the first. *)
Lemma sorted_split {A : Type} (key : A -> Q) (l1 l2 : list A) :
  StronglySorted (descending key) (l1 ++ l2) ->
  forall x y, In x l1 -> In y l2 -> key y <= key x.
Proof.
  induction l1 as [|a l1 IH]; intros Hs x y Hx Hy; [destruct Hx|].
  simpl in Hs. inversion Hs as [|? ? Hs' Hall]; subst.
  destruct Hx as [<- | Hx].
  - rewrite Forall_forall in Hall. apply (Hall y). apply in_or_app. right. exact Hy.
  - apply (IH Hs' x y Hx Hy).
Qed.

Lemma sorted_weaken {A : Type} (R R' : A -> A -> Prop) (l : list A) :
  (forall a b, R a b -> R' a b) -> StronglySorted R l -> StronglySorted R' l.
Proof.
  intros H Hs. induction Hs as [|a l Hs IH Hall]; constructor; [exact IH|].
  rewrite Forall_forall in *. intros x Hx. apply H, Hall, Hx.
Qed.

Lemma sorted_firstn {A : Type} (key : A -> Q) (n : nat) (l : list A) :
  StronglySorted (descending key) l -> StronglySorted (descending key) (firstn n l).
Proof.
  intro Hs. revert n. induction Hs as [|a l Hs IH Hall]; intro n.
  - rewrite firstn_nil. constructor.
  - destruct n as [|n]; simpl; constructor; [apply IH|].
    rewrite Forall_forall in *. intros x Hx. apply Hall.
    rewrite <- (firstn_skipn n l). apply in_or_app. left. exact Hx.
Qed.

(** The first [n] elements of the sort of [l] by [key]: they are in
    descending order, they come from [l], and what is left out does not
    exceed any of them. *)
Lemma top_of_sort {A : Type} (key : A -> Q) (n : nat) (l : list A) :
  let top := firstn n (Js.sort (byKeyDesc key) l) in
  (List.length top <= n)%nat
  /\ StronglySorted (descending key) top
  /\ (forall x, In x top -> In x l)
  /\ (forall x y, In x l -> ~ In x top -> In y top -> key x <= key y).
Proof.
  intro top. pose proof (sort_sorted_by key l) as [Hperm Hsorted].
  split; [apply firstn_le_length|].
  split; [apply sorted_firstn, Hsorted|].
  split.
  - intros x Hx. apply (Permutation_in x (Permutation_sym Hperm)).
    unfold top in Hx. rewrite <- (firstn_skipn n (Js.sort (byKeyDesc key) l)).
    apply in_or_app. left. exact Hx.
  - intros x y Hx Hnot Hy.
    apply (Permutation_in x Hperm) in Hx.
    rewrite <- (firstn_skipn n (Js.sort (byKeyDesc key) l)) in Hx, Hsorted.
    apply in_app_or in Hx. destruct Hx as [Hx | Hx]; [contradiction|].
    apply (sorted_split key _ _ Hsorted y x Hy Hx).
Qed.

Section Favorable.
Import Api Optimizer.

(** X6. [getFavorableMatchups] returns at most three entries of the matchup row
    of the deck, each with a rate of at least 55, in descending order of
    rate, and no entry of at least 55 that it leaves out has a higher rate
    than one it returns.  [getUnfavorableMatchups] does the same for the
    rates of at most 45, in ascending order, leaving out no lower rate.  No
    entry is in both. *)
Theorem favorable_unfavorable_matchups :
  forall (this : DeckOptimizer) (deckName : string) (row : list (string * Q)),
    Js.Map_get (matchups this) deckName = Some row ->
    let fav := getFavorableMatchups this deckName in
    let unfav := getUnfavorableMatchups this deckName in
    (List.length fav <= 3)%nat
    /\ (List.length unfav <= 3)%nat
    /\ StronglySorted (fun a b => snd b <= snd a) fav
    /\ StronglySorted (fun a b => snd a <= snd b) unfav
    /\ (forall e, In e fav -> In e row /\ 55 <= snd e)
    /\ (forall e, In e unfav -> In e row /\ snd e <= 45)
    /\ (forall e e', In e row -> 55 <= snd e -> ~ In e fav -> In e' fav ->
                     snd e <= snd e')
    /\ (forall e e', In e row -> snd e <= 45 -> ~ In e unfav -> In e' unfav ->
                     snd e' <= snd e)
    /\ (forall e, In e fav -> ~ In e unfav).
Proof.
  intros this deckName row Hrow fav unfav.
  assert (Efav : fav = firstn 3 (Js.sort (byKeyDesc snd)
                                   (filter (fun e => Js.geb (snd e) 55) row))).
  { unfold fav, getFavorableMatchups. rewrite Hrow. reflexivity. }
  assert (Eunfav : unfav
                   = firstn 3 (Js.sort (byKeyDesc (fun e => - snd e))
                                 (filter (fun e => Qle_bool (snd e) 45) row))).
  { unfold unfav, getUnfavorableMatchups. rewrite Hrow. unfold Js.slice.
    cbn [skipn Nat.sub]. f_equal. apply sort_ext.
    intros a b. unfold byKeyDesc. apply Qleb_comp; [ring | reflexivity]. }
  pose proof (top_of_sort snd 3 (filter (fun e => Js.geb (snd e) 55) row)) as Hf.
  pose proof (top_of_sort (fun e : string * Q => - snd e) 3
                (filter (fun e => Qle_bool (snd e) 45) row)) as Hu.
  cbv zeta in Hf, Hu. rewrite <- Efav in Hf. rewrite <- Eunfav in Hu.
  destruct Hf as (Hf1 & Hf2 & Hf3 & Hf4). destruct Hu as (Hu1 & Hu2 & Hu3 & Hu4).
  assert (Hfav : forall e, In e fav -> In e row /\ 55 <= snd e).
  { intros e He. apply Hf3, filter_In in He. destruct He as [He Hr].
    apply geb_true in Hr. auto. }
  assert (Hunfav : forall e, In e unfav -> In e row /\ snd e <= 45).
  { intros e He. apply Hu3, filter_In in He. destruct He as [He Hr].
    apply Qle_bool_iff in Hr. auto. }
  repeat match goal with |- _ /\ _ => split end; auto.
  - apply (sorted_weaken (descending (fun e : string * Q => - snd e))); [|exact Hu2].
    unfold descending. intros a b H. lra.
  - intros e e' He Hr Hnot He'. apply (Hf4 e e'); auto.
    apply filter_In. split; [exact He | apply geb_true, Hr].
  - intros e e' He Hr Hnot He'.
    assert (H : - snd e <= - snd e').
    { apply (Hu4 e e'); auto.
      apply filter_In. split; [exact He | apply Qle_bool_iff, Hr]. }
    lra.
  - intros e He Hu. apply Hfav in He. apply Hunfav in Hu. lra.
Qed.

Lemma favorable_unfavorable_matchups_witness :
  let fav := getFavorableMatchups (new exampleField exampleMatchups) "a" in
  let unfav := getUnfavorableMatchups (new exampleField exampleMatchups) "a" in
  (List.length fav <= 3)%nat
  /\ (List.length unfav <= 3)%nat
  /\ StronglySorted (fun a b => snd b <= snd a) fav
  /\ StronglySorted (fun a b => snd a <= snd b) unfav
  /\ (forall e, In e fav -> In e [("b"%string, 60)] /\ 55 <= snd e)
  /\ (forall e, In e unfav -> In e [("b"%string, 60)] /\ snd e <= 45)
  /\ (forall e e', In e [("b"%string, 60)] -> 55 <= snd e -> ~ In e fav ->
                   In e' fav -> snd e <= snd e')
  /\ (forall e e', In e [("b"%string, 60)] -> snd e <= 45 -> ~ In e unfav ->
                   In e' unfav -> snd e' <= snd e)
  /\ (forall e, In e fav -> ~ In e unfav).
Proof.
  apply (favorable_unfavorable_matchups
           (new exampleField exampleMatchups) "a" [("b"%string, 60)]).
  vm_compute. reflexivity.
Defined.

End Favorable.

(** ** The ranking and the lineup *)

Section Ranking.
Import Api Optimizer.

Lemma ranked_perm {rt : JsRuntime} (this : DeckOptimizer) :
  Permutation (map deck (fst (analyzeAllDecks this))) (decks this).
Proof.
  pose proof (sort_perm (byKeyDesc expectedWinRate)
                (map (analyzeDeck this) (decks this))) as Hperm.
  apply Permutation_sym.
  eapply perm_trans; [|apply Permutation_map, Hperm].
  rewrite map_map. simpl. rewrite map_id. apply Permutation_refl.
Qed.

Lemma ranked_fields {rt : JsRuntime} (this : DeckOptimizer) (a : DeckAnalysis) :
  In a (fst (analyzeAllDecks this)) ->
  In (deck a) (decks this)
  /\ expectedWinRate a = calculateExpectedWinRate this (name (deck a))
  /\ tier a = getTier (expectedWinRate a)
  /\ confidenceLevel a = calculateConfidence (deck a)
  /\ stability a = calculateStability this (name (deck a)).
Proof.
  intro Ha.
  pose proof (sort_perm (byKeyDesc expectedWinRate)
                (map (analyzeDeck this) (decks this))) as Hperm.
  apply (Permutation_in a (Permutation_sym Hperm)) in Ha.
  apply in_map_iff in Ha. destruct Ha as (d & <- & Hd). simpl. auto.
Qed.

Lemma ranked_head_max {rt : JsRuntime} (this : DeckOptimizer)
  (a : DeckAnalysis) (rest : list DeckAnalysis) (b : DeckAnalysis) :
  fst (analyzeAllDecks this) = a :: rest ->
  In b (fst (analyzeAllDecks this)) ->
  expectedWinRate b <= expectedWinRate a.
Proof.
  intros E Hb.
  pose proof (sort_strongly_sorted expectedWinRate
                (map (analyzeDeck this) (decks this))) as Hsorted.
  change (Js.sort (byKeyDesc expectedWinRate) (map (analyzeDeck this) (decks this)))
    with (fst (analyzeAllDecks this)) in Hsorted.
  rewrite E in Hsorted, Hb.
  inversion Hsorted as [|? ? _ Hall]; subst.
  destruct Hb as [<- | Hb]; [lra|].
  rewrite Forall_forall in Hall. apply (Hall b Hb).
Qed.

(** X7. [analyzeAllDecks] returns one analysis per deck of the field; each
    carries the expected win rate, the tier, the confidence and the
    stability of its deck; and no analysis has a higher expected win rate
    than the first. *)
Theorem analyzeAllDecks_ranks_every_deck :
  forall (rt : JsRuntime) (this : DeckOptimizer),
    let ranked := fst (analyzeAllDecks this) in
    Permutation (map deck ranked) (decks this)
    /\ (forall a, In a ranked ->
          expectedWinRate a = calculateExpectedWinRate this (name (deck a))
          /\ tier a = getTier (expectedWinRate a)
          /\ confidenceLevel a = calculateConfidence (deck a)
          /\ stability a = calculateStability this (name (deck a)))
    /\ (forall a rest b, ranked = a :: rest -> In b ranked ->
          expectedWinRate b <= expectedWinRate a).
Proof.
  intros rt this ranked. split; [|split].
  - apply ranked_perm.
  - intros a Ha. apply (ranked_fields this a Ha).
  - intros a rest b E Hb. apply (ranked_head_max this a rest b E Hb).
Qed.

Lemma confidence_percentage (d : Deck) :
  Js.Math_round (calculateConfidence d * 100) == calculateConfidence d * 100.
Proof.
  unfold calculateConfidence. cbv zeta.
  repeat match goal with
         | |- context [Js.geb ?a ?b] => destruct (Js.geb a b)
         end; vm_compute; reflexivity.
Qed.

(** X8. [recommendTournamentLineup] fails on an empty field and on no other.
    On a field with decks the main slot holds the analysis of a deck of the
    field, no deck of the field has a higher expected win rate, and the
    confidence shown with it is the confidence level as a whole
    percentage. *)
Theorem recommendTournamentLineup_main_slot :
  forall (rt : JsRuntime) (this : DeckOptimizer),
    (decks this = [] -> fst (recommendTournamentLineup this) = None)
    /\ (decks this <> [] ->
        exists lineup,
          fst (recommendTournamentLineup this) = Some lineup
          /\ In (deck (base (val (main lineup)))) (decks this)
          /\ (forall d, In d (decks this) ->
                calculateExpectedWinRate this (name d)
                <= expectedWinRate (base (val (main lineup))))
          /\ confidence (val (main lineup))
             == confidenceLevel (base (val (main lineup))) * 100).
Proof.
  intros rt this. split.
  - intro E. unfold recommendTournamentLineup, analyzeAllDecks. rewrite E.
    reflexivity.
  - intro Hne.
    pose proof (ranked_perm this) as Hperm.
    unfold recommendTournamentLineup.
    change (analyzeAllDecks this) with (fst (analyzeAllDecks this), this).
    cbn [fst].
    destruct (fst (analyzeAllDecks this)) as [|a rest] eqn:E.
    + exfalso. apply Hne. simpl in Hperm.
      apply Permutation_nil in Hperm. exact Hperm.
    + unfold recommendFrom. rewrite allocate_cons.
      eexists. split; [reflexivity|]. cbn [main val base confidence].
      split; [|split].
      * apply (Permutation_in (deck a) Hperm). left. reflexivity.
      * intros d Hd.
        apply (Permutation_in d (Permutation_sym Hperm)) in Hd.
        apply in_map_iff in Hd. destruct Hd as (b & <- & Hb).
        rewrite <- E in Hb.
        destruct (ranked_fields this b Hb) as (_ & <- & _).
        apply (ranked_head_max this a rest b E Hb).
      * assert (Ha : In a (fst (analyzeAllDecks this)))
          by (rewrite E; left; reflexivity).
        destruct (ranked_fields this a Ha) as (_ & _ & _ & -> & _).
        apply confidence_percentage.
Qed.

Lemma in_firstn_nth {A : Type} (k : nat) (l : list A) (x : A) :
  In x (firstn k l) -> exists i, (i < k)%nat /\ nth_error l i = Some x.
Proof.
  revert l. induction k as [|k IH]; intros l Hx.
  - destruct Hx.
  - destruct l as [|y l]; [destruct Hx|]. simpl in Hx.
    destruct Hx as [<- | Hx].
    + exists 0%nat. split; [lia | reflexivity].
    + destruct (IH l Hx) as (i & Hi & Hnth).
      exists (S i). split; [lia | exact Hnth].
Qed.

(** The object allocated for the element at position [i] has the address
    of that position and holds that element. *)
Lemma allocated_nth (l : list DeckAnalysis) :
  forall (s i : nat) (x : Obj DeckAnalysis),
    nth_error (map (fun ia => {| addr := fst ia; val := snd ia |})
                   (combine (seq s (List.length l)) l)) i = Some x ->
    addr x = (s + i)%nat /\ nth_error l i = Some (val x).
Proof.
  induction l as [|a l IH]; intros s i x H; simpl in H.
  - destruct i; discriminate H.
  - destruct i as [|i]; simpl in H.
    + injection H as <-. simpl. split; [lia | reflexivity].
    + destruct (IH (S s) i x H) as [Ha Hn]. simpl. split; [lia | exact Hn].
Qed.

(** X9. The sub slot, when it is filled, holds one of the analyses ranked
    second to tenth, with an expected win rate of at least 51 and with a
    strength that contains the first word of a weakness of the main deck;
    a main deck without weaknesses leaves the slot empty. *)
Theorem sub_slot_sound :
  forall (this : DeckOptimizer) (analyses : list DeckAnalysis)
         (lineup : TournamentLineup) (s : Obj DeckAnalysis),
    recommendFrom this analyses = Some lineup ->
    sub lineup = Some s ->
    (1 <= addr s <= 9)%nat
    /\ nth_error analyses (addr s) = Some (val s)
    /\ 51 <= expectedWinRate (val s)
    /\ coversWeakness (val (main lineup)) (val s) = true
    /\ weaknesses (base (val (main lineup))) <> [].
Proof.
  intros this analyses lineup s. unfold recommendFrom.
  destruct analyses as [|a rest]; [discriminate|].
  rewrite allocate_cons.
  intros Hl Hs. injection Hl as Hl. rewrite <- Hl in Hs |- *. clear Hl.
  match type of Hs with
  | sub {| main := _; sub := ?found; meta := _ |} = _ =>
      change (found = Some s) in Hs
  end.
  match type of Hs with
  | find ?P ?l = _ => destruct (find_some P l Hs) as [Hin Hc]
  end.
  clear Hs. apply andb_true_iff in Hc. destruct Hc as [Hcov Hrate].
  apply geb_true in Hrate.
  unfold Js.slice in Hin. cbn [skipn Nat.sub] in Hin.
  apply in_firstn_nth in Hin. destruct Hin as (i & Hi & Hnth).
  apply allocated_nth in Hnth. destruct Hnth as [Haddr Hval].
  cbn [main val base] in *.
  split; [lia|]. split; [rewrite Haddr; exact Hval|].
  split; [exact Hrate|]. split; [exact Hcov|].
  intro Hnone. unfold coversWeakness in Hcov. cbn [base] in Hcov.
  rewrite Hnone in Hcov. discriminate Hcov.
Qed.

Lemma sub_slot_sound_witness :
  exists lineup s,
    recommendFrom exampleOptimizer exampleRanking = Some lineup
    /\ sub lineup = Some s
    /\ (1 <= addr s <= 9)%nat
    /\ nth_error exampleRanking (addr s) = Some (val s)
    /\ 51 <= expectedWinRate (val s)
    /\ coversWeakness (val (main lineup)) (val s) = true
    /\ weaknesses (base (val (main lineup))) <> [].
Proof.
  eexists. eexists.
  split; [lazy; reflexivity|]. split; [reflexivity|].
  eapply (sub_slot_sound exampleOptimizer exampleRanking); lazy; reflexivity.
Defined.

Lemma meta_slot_sound_witness :
  exists lineup m,
    recommendFrom exampleOptimizer exampleRanking = Some lineup
    /\ meta lineup = Some m
    /\ In m (allocate exampleRanking)
    /\ share (deck (val m)) < 5
    /\ 53 <= expectedWinRate (val m)
    /\ (forall s, sub lineup = Some s -> addr m <> addr s).
Proof.
  eexists. eexists.
  split; [lazy; reflexivity|]. split; [reflexivity|].
  eapply (meta_slot_sound exampleOptimizer exampleRanking); lazy; reflexivity.
Defined.

Lemma meta_slot_takes_top_witness :
  exists lineup,
    recommendFrom exampleOptimizer
      [analysisOf (deckOf "g" 4 56) 57 [] []; analysisOf (deckOf "a" 30 55) 55 [] []]
    = Some lineup
    /\ base (val (main lineup)) = analysisOf (deckOf "g" 4 56) 57 [] []
    /\ meta lineup
       = Some {| addr := 0; val := analysisOf (deckOf "g" 4 56) 57 [] [] |}.
Proof.
  apply (meta_slot_takes_top exampleOptimizer
           (analysisOf (deckOf "g" 4 56) 57 [] [])
           [analysisOf (deckOf "a" 30 55) 55 [] []]).
  - simpl. lra.
  - simpl. lra.
Defined.

End Ranking.

(** ** The tier list *)

Section TierList.
Import Api Optimizer.

Lemma bucket_step {A T : Type} (p : T -> A -> bool) (a : A) (l : list A)
  (ts : list T) :
  Permutation (flat_map (fun t => filter (p t) (a :: l)) ts)
              (map (fun _ => a) (filter (fun t => p t a) ts)
               ++ flat_map (fun t => filter (p t) l) ts).
Proof.
  induction ts as [|t ts IH]; simpl; [apply perm_nil|].
  destruct (p t a); simpl.
  - apply perm_skip.
    eapply perm_trans; [apply Permutation_app_head, IH|].
    apply Permutation_app_swap_app.
  - eapply perm_trans; [apply Permutation_app_head, IH|].
    apply Permutation_app_swap_app.
Qed.

(** When every element falls into exactly one bucket, the buckets taken
    together hold every element once. *)
Lemma buckets_partition {A T : Type} (p : T -> A -> bool) (ts : list T)
  (l : list A) :
  (forall a, In a l -> exists t, filter (fun t => p t a) ts = [t]) ->
  Permutation (flat_map (fun t => filter (p t) l) ts) l.
Proof.
  induction l as [|a l IH]; intro H.
  - clear H. induction ts as [|t ts IHts]; simpl; [apply perm_nil | exact IHts].
  - eapply perm_trans; [apply bucket_step|].
    destruct (H a (or_introl eq_refl)) as [t ->]. simpl.
    apply perm_skip, IH. intros b Hb. apply H. right. exact Hb.
Qed.

Lemma tier_label_in_one_bucket (x : Q) :
  exists t, filter (fun t => String.prefix (t ++ " ") (getTier x)) tiers = [t].
Proof.
  unfold getTier.
  repeat match goal with
         | |- context [Js.geb ?a ?b] => destruct (Js.geb a b)
         end; eexists; vm_compute; reflexivity.
Qed.

(** X12. The tier list leaves no analysed deck out and shows none twice: the
    lists that [formatTierList] prints under the six tier levels, taken
    together, are the ranking of [analyzeAllDecks] rearranged. *)
Theorem tier_list_shows_every_deck_once :
  forall (rt : JsRuntime) (this : DeckOptimizer),
    let ranked := fst (analyzeAllDecks this) in
    Permutation (flat_map (tierDecks ranked) tiers) ranked.
Proof.
  intros rt this ranked. unfold tierDecks.
  apply (buckets_partition (fun t a => String.prefix (t ++ " ") (tier a))).
  intros a Ha.
  destruct (ranked_fields this a Ha) as (_ & _ & -> & _).
  apply tier_label_in_one_bucket.
Qed.

End TierList.

(** ** Coverage selection: the optimiser on the selection *)

(** X14. The reports build the optimiser on the selection.  Its constructor
    leaves the selection in the order it has; the coverage it records is
    the running sum of the selection, the one that the selection loop
    compared with the target; and unless every deck was selected, that
    coverage has reached the target. *)
Theorem optimizer_on_selection :
  forall (decks : list Ieee.Deck) (target : float) (matchups : Ieee.Optimizer.Matchups),
    let selected := Ieee.Coverage.selectDecksByCoverage decks target in
    let optimizer := Ieee.Optimizer.new selected matchups in
    Ieee.Optimizer.decks optimizer = selected
    /\ Ieee.Optimizer.environmentCoverage optimizer = IeeeSpec.runningSum selected
    /\ (Ieee.geb (Ieee.Optimizer.environmentCoverage optimizer) target = true
        \/ selected
           = Ieee.sort (fun a b => (Ieee.share b - Ieee.share a)%float) decks).
Proof.
  intros decks target matchups selected optimizer.
  set (sorted := Ieee.sort (fun a b => (Ieee.share b - Ieee.share a)%float) decks).
  destruct (selectLoop_prefix target sorted 0)
    as (k & Hloop & Hk & _ & _ & Hend).
  assert (Hsel : selected = firstn k sorted).
  { unfold selected, Ieee.Coverage.selectDecksByCoverage.
    destruct decks; [|exact Hloop].
    destruct k; reflexivity. }
  assert (Hsorted : Sorted (IeeeSpec.descending Ieee.share) selected).
  { rewrite Hsel. apply Sorted_firstn, (ieee_sort_sorted Ieee.share). }
  assert (Hdecks : Ieee.Optimizer.decks optimizer = selected)
    by apply (ieee_sort_of_sorted Ieee.share selected Hsorted).
  assert (Hcov : Ieee.Optimizer.environmentCoverage optimizer
                 = IeeeSpec.runningSum selected).
  { unfold optimizer, Ieee.Optimizer.new. cbn [Ieee.Optimizer.environmentCoverage].
    change (Ieee.sort (fun a b => (Ieee.share b - Ieee.share a)%float) selected)
      with (Ieee.Optimizer.decks optimizer).
    rewrite Hdecks. reflexivity. }
  split; [exact Hdecks|]. split; [exact Hcov|].
  rewrite Hcov, Hsel.
  destruct Hend as [Hend | Hend]; [left; exact Hend | right].
  rewrite Hend. apply firstn_all.
Qed.

(** ** Meta cycles and the recommendation by skill level *)

Section Cycles.
Import Api AdvancedMetaAnalyzer.

Lemma forEachWithRest_In {A B : Type} (body : A -> list A -> list B)
  (l : list A) (y : B) :
  In y (Js.forEachWithRest body l)
  <-> exists before x after, l = before ++ x :: after /\ In y (body x after).
Proof.
  induction l as [|a l IH]; simpl.
  - split; [intros [] | intros (before & x & after & E & _)].
    destruct before; discriminate E.
  - rewrite in_app_iff, IH. split.
    + intros [H | (before & x & after & -> & H)].
      * exists [], a, l. split; [reflexivity | exact H].
      * exists (a :: before), x, after. split; [reflexivity | exact H].
    + intros (before & x & after & E & H).
      destruct before as [|b before]; simpl in E; injection E as <- ->.
      * left. exact H.
      * right. exists before, x, after. split; [reflexivity | exact H].
Qed.

Lemma forEachWithRest_length {A B : Type} (body : A -> list A -> list B)
  (g : nat -> nat) (l : list A) :
  (forall x after, (List.length (body x after) <= g (List.length after))%nat) ->
  (List.length (Js.forEachWithRest body l) <= sumTo g (List.length l))%nat.
Proof.
  intro H. induction l as [|a l IH]; simpl; [lia|].
  rewrite length_app. specialize (H a l). lia.
Qed.

Lemma sumTo_monotone (g : nat -> nat) (n m : nat) :
  (n <= m)%nat -> (sumTo g n <= sumTo g m)%nat.
Proof. induction 1; simpl; lia. Qed.

(** The cycles that the loops find are exactly the triples of major decks,
    taken in the order of the list, that form a cycle. *)
Lemma cyclesFound_In (l : list DeckAnalysis) (c : MetaCycle) :
  In c (cyclesFound l)
  <-> exists l1 deck1 l2 deck2 l3 deck3 l4,
        l = l1 ++ deck1 :: l2 ++ deck2 :: l3 ++ deck3 :: l4
        /\ formsCycle deck1 deck2 deck3 = true
        /\ c = {| cycle_decks :=
                    [name (deck deck1); name (deck deck2); name (deck deck3)];
                  strength := calculateCycleStrength deck1 deck2 deck3 |}.
Proof.
  unfold cyclesFound. rewrite forEachWithRest_In. split.
  - intros (l1 & deck1 & after1 & -> & H).
    apply forEachWithRest_In in H. destruct H as (l2 & deck2 & after2 & -> & H).
    apply in_flat_map in H. destruct H as (deck3 & H3 & H).
    apply in_split in H3. destruct H3 as (l3 & l4 & ->).
    destruct (formsCycle deck1 deck2 deck3) eqn:E; [|destruct H].
    destruct H as [<- | []].
    exists l1, deck1, l2, deck2, l3, deck3, l4. auto.
  - intros (l1 & deck1 & l2 & deck2 & l3 & deck3 & l4 & -> & E & ->).
    exists l1, deck1, (l2 ++ deck2 :: l3 ++ deck3 :: l4). split; [reflexivity|].
    apply forEachWithRest_In.
    exists l2, deck2, (l3 ++ deck3 :: l4). split; [reflexivity|].
    apply in_flat_map. exists deck3. split.
    + apply in_or_app. right. left. reflexivity.
    + rewrite E. left. reflexivity.
Qed.

Lemma cyclesFound_length (l : list DeckAnalysis) :
  (List.length (cyclesFound l) <= sumTo (sumTo (fun k => k)) (List.length l))%nat.
Proof.
  unfold cyclesFound. apply forEachWithRest_length. intros deck1 after1.
  apply forEachWithRest_length. intros deck2 after2.
  induction after2 as [|deck3 after2 IH]; simpl; [lia|].
  rewrite length_app. destruct (formsCycle deck1 deck2 deck3); simpl; lia.
Qed.

Lemma majorDecks_spec (analyses : list DeckAnalysis) :
  (List.length (majorDecks analyses) <= 20)%nat
  /\ forall a, In a (majorDecks analyses) -> In a analyses /\ 3 <= share (deck a).
Proof.
  unfold majorDecks, Js.slice. cbn [skipn Nat.sub]. split.
  - apply firstn_le_length.
  - intros a Ha. apply in_firstn, filter_In in Ha. destruct Ha as [Ha Hs].
    apply geb_true in Hs. split; [exact Ha | lra].
Qed.

(** X15. [detectMetaCycles] returns at most 1140 cycles, in descending order of
    strength.  Each is formed by three analyses with a share of at least 3
    that follow each other in the list of major decks and form a cycle, and
    every such triple is returned. *)
Theorem detectMetaCycles_triples :
  forall analyses : list DeckAnalysis,
    let cycles := detectMetaCycles analyses in
    (List.length cycles <= 1140)%nat
    /\ StronglySorted (fun a b => strength b <= strength a) cycles
    /\ (forall c,
          In c cycles
          <-> exists l1 deck1 l2 deck2 l3 deck3 l4,
                majorDecks analyses = l1 ++ deck1 :: l2 ++ deck2 :: l3 ++ deck3 :: l4
                /\ formsCycle deck1 deck2 deck3 = true
                /\ c = {| cycle_decks :=
                            [name (deck deck1); name (deck deck2); name (deck deck3)];
                          strength := calculateCycleStrength deck1 deck2 deck3 |})
    /\ (forall a, In a (majorDecks analyses) -> In a analyses /\ 3 <= share (deck a)).
Proof.
  intros analyses cycles.
  destruct (sort_sorted_by strength (cyclesFound (majorDecks analyses)))
    as [Hperm Hsorted].
  change (Js.sort (byKeyDesc strength) (cyclesFound (majorDecks analyses)))
    with cycles in Hperm, Hsorted.
  destruct (majorDecks_spec analyses) as [Hlen Hmajor].
  split; [|split; [exact Hsorted | split; [|exact Hmajor]]].
  - rewrite <- (Permutation_length Hperm).
    eapply Nat.le_trans; [apply cyclesFound_length|].
    eapply Nat.le_trans; [apply sumTo_monotone, Hlen|].
    vm_compute. lia.
  - intro c. rewrite <- cyclesFound_In. split; intro H.
    + apply (Permutation_in c (Permutation_sym Hperm) H).
    + apply (Permutation_in c Hperm H).
Qed.

Lemma slice_filter_spec {A : Type} (n : nat) (p : A -> bool) (l : list A) :
  let r := Js.slice 0 n (filter p l) in
  (List.length r <= n)%nat
  /\ (forall a, In a r -> In a l /\ p a = true)
  /\ ((List.length r < n)%nat -> forall a, In a l -> p a = true -> In a r).
Proof.
  intro r. unfold r, Js.slice. cbn [skipn]. rewrite Nat.sub_0_r.
  split; [apply firstn_le_length|]. split.
  - intros a Ha. apply in_firstn, filter_In in Ha. exact Ha.
  - intros Hlen a Ha Hp. rewrite length_firstn in Hlen.
    rewrite firstn_all2 by lia. apply filter_In. auto.
Qed.

(** X16. The recommendation by skill level gives at most three, five and three
    analyses.  Each one comes from the ranking and passes the thresholds of
    its level; a level that is not full holds every analysis that passes
    them; and no analysis is recommended both to beginners and to
    experts. *)
Theorem recommendBySkillLevel_levels :
  forall analyses : list DeckAnalysis,
    let r := recommendBySkillLevel analyses in
    ((List.length (beginner r) <= 3)%nat
     /\ (List.length (intermediate r) <= 5)%nat
     /\ (List.length (expert r) <= 3)%nat)
    /\ (forall a, In a (beginner r) ->
          In a analyses /\ 0.7 < stability a /\ 51 <= expectedWinRate a
          /\ 5 <= share (deck a))
    /\ (forall a, In a (intermediate r) ->
          In a analyses /\ 53 <= expectedWinRate a /\ 0.6 <= confidenceLevel a)
    /\ (forall a, In a (expert r) ->
          In a analyses /\ share (deck a) < 5 /\ 55 <= expectedWinRate a
          /\ 0.5 < stability a)
    /\ (forall a, In a analyses ->
          ((List.length (beginner r) < 3)%nat ->
           0.7 < stability a -> 51 <= expectedWinRate a -> 5 <= share (deck a) ->
           In a (beginner r))
          /\ ((List.length (intermediate r) < 5)%nat ->
              53 <= expectedWinRate a -> 0.6 <= confidenceLevel a ->
              In a (intermediate r))
          /\ ((List.length (expert r) < 3)%nat ->
              share (deck a) < 5 -> 55 <= expectedWinRate a -> 0.5 < stability a ->
              In a (expert r)))
    /\ (forall a, In a (beginner r) -> ~ In a (expert r)).
Proof.
  intros analyses r. unfold r, recommendBySkillLevel. cbn [beginner intermediate expert].
  match goal with
  | |- context [Js.slice 0 3 (filter ?p analyses)] =>
      lazymatch p with
      | context [Js.geb _ 51] =>
          destruct (slice_filter_spec 3 p analyses) as (Hb1 & Hb2 & Hb3)
      end
  end.
  match goal with
  | |- context [Js.slice 0 5 (filter ?p analyses)] =>
      destruct (slice_filter_spec 5 p analyses) as (Hi1 & Hi2 & Hi3)
  end.
  match goal with
  | |- context [Js.slice 0 3 (filter ?p analyses)] =>
      lazymatch p with
      | context [Js.geb _ 55] =>
          destruct (slice_filter_spec 3 p analyses) as (He1 & He2 & He3)
      end
  end.
  assert (Hbeg : forall a,
             In a (Js.slice 0 3
                     (filter (fun a => Js.gtb (stability a) 0.7
                                       && Js.geb (expectedWinRate a) 51
                                       && Js.geb (share (deck a)) 5) analyses)) ->
             In a analyses /\ 0.7 < stability a /\ 51 <= expectedWinRate a
             /\ 5 <= share (deck a)).
  { intros a Ha. destruct (Hb2 a Ha) as [Hin Hp].
    apply andb_true_iff in Hp. destruct Hp as [Hp H3].
    apply andb_true_iff in Hp. destruct Hp as [H1 H2].
    apply gtb_true in H1. apply geb_true in H2, H3. auto. }
  assert (Hexp : forall a,
             In a (Js.slice 0 3
                     (filter (fun a => Js.ltb (share (deck a)) 5
                                       && Js.geb (expectedWinRate a) 55
                                       && Js.gtb (stability a) 0.5) analyses)) ->
             In a analyses /\ share (deck a) < 5 /\ 55 <= expectedWinRate a
             /\ 0.5 < stability a).
  { intros a Ha. destruct (He2 a Ha) as [Hin Hp].
    apply andb_true_iff in Hp. destruct Hp as [Hp H3].
    apply andb_true_iff in Hp. destruct Hp as [H1 H2].
    apply ltb_true in H1. apply geb_true in H2. apply gtb_true in H3. auto. }
  split; [auto|]. split; [exact Hbeg|]. split; [|split; [exact Hexp|split]].
  - intros a Ha. destruct (Hi2 a Ha) as [Hin Hp].
    apply andb_true_iff in Hp. destruct Hp as [H1 H2].
    apply geb_true in H1, H2. auto.
  - intros a Ha. split; [|split].
    + intros Hlen H1 H2 H3. apply (Hb3 Hlen a Ha).
      apply gtb_true in H1. apply geb_true in H2, H3. rewrite H1, H2, H3. reflexivity.
    + intros Hlen H1 H2. apply (Hi3 Hlen a Ha).
      apply geb_true in H1, H2. rewrite H1, H2. reflexivity.
    + intros Hlen H1 H2 H3. apply (He3 Hlen a Ha).
      apply ltb_true in H1. apply geb_true in H2. apply gtb_true in H3.
      rewrite H1, H2, H3. reflexivity.
  - intros a Ha He. apply Hbeg in Ha. apply Hexp in He. lra.
Qed.

End Cycles.

(** ** Trends: the share history and the confidence *)

Section TrendsMore.
Import Api AdvancedMetaAnalyzer.

Lemma extended_app (o : option (list Q)) (vs ws : list Q) :
  extended (extended o vs) ws = extended o (vs ++ ws).
Proof.
  destruct vs as [|v vs]; [reflexivity|].
  destruct ws as [|w ws]; simpl.
  - rewrite app_nil_r. reflexivity.
  - rewrite <- app_assoc. reflexivity.
Qed.

Lemma Map_get_pushShare (trends : list (string * list Q)) (k n : string) (v : Q) :
  Js.Map_get (pushShare trends k v) n
  = if String.eqb k n then extended (Js.Map_get trends n) [v]
    else Js.Map_get trends n.
Proof.
  unfold Js.Map_get.
  induction trends as [|[k' shares] trends IH]; simpl.
  - destruct (String.eqb k n); reflexivity.
  - destruct (String.eqb k' k) eqn:Ek; simpl.
    + apply String.eqb_eq in Ek. subst k'.
      destruct (String.eqb k n); reflexivity.
    + destruct (String.eqb k' n) eqn:En; simpl.
      * apply String.eqb_eq in En. subst k'.
        rewrite String.eqb_sym in Ek. rewrite Ek. reflexivity.
      * exact IH.
Qed.

Lemma pushShare_fold (ds : list Deck) (n : string) :
  forall trends,
    Js.Map_get
      (fold_left (fun trends deck => pushShare trends (name deck) (share deck))
                 ds trends) n
    = extended (Js.Map_get trends n) (sharesOf n ds).
Proof.
  unfold sharesOf. induction ds as [|d ds IH]; intro trends; simpl.
  - reflexivity.
  - rewrite IH, Map_get_pushShare.
    destruct (String.eqb (name d) n); simpl; [|reflexivity].
    apply (extended_app _ [share d]).
Qed.

(** X17. The map of [analyzeTrends] holds, for a deck name, the shares of the
    decks of that name in the order of the snapshots and, within a
    snapshot, of its deck list; a name that occurs in no snapshot has no
    entry. *)
Theorem analyzeTrends_share_history :
  forall (historicalData : list TimeSeries) (n : string),
    Js.Map_get (analyzeTrends historicalData) n
    = match sharesOf n (flat_map decks historicalData) with
      | [] => None
      | shares => Some shares
      end.
Proof.
  intros historicalData n. unfold analyzeTrends.
  enough (H : forall trends,
             Js.Map_get
               (fold_left
                  (fun trends dataPoint =>
                     fold_left
                       (fun trends deck => pushShare trends (name deck) (share deck))
                       (decks dataPoint) trends)
                  historicalData trends) n
             = extended (Js.Map_get trends n)
                        (sharesOf n (flat_map decks historicalData))).
  { rewrite H. destruct (sharesOf n (flat_map decks historicalData)); reflexivity. }
  induction historicalData as [|dataPoint rest IH]; intro trends; simpl.
  - reflexivity.
  - rewrite IH, pushShare_fold, extended_app. f_equal.
    unfold sharesOf. rewrite filter_app, map_app. reflexivity.
Qed.

(** X18. A deck is never reported both as rising and as declining. *)
Theorem rising_and_declining_are_disjoint :
  forall (historicalData : list TimeSeries) (n : string),
    let trends := analyzeTrends historicalData in
    In n (identifyRisingDecks trends) -> ~ In n (identifyDecliningDecks trends).
Proof.
  intros historicalData n trends Hr Hd.
  assert (Hnd : NoDup (map fst trends)) by apply analyzeTrends_NoDup.
  destruct (reported_is_candidate _ _ Hr) as (c & Hc & Ec).
  destruct (reported_is_candidate _ _ Hd) as (c' & Hc' & Ec').
  apply rising_candidate_iff in Hc. apply declining_candidate_iff in Hc'.
  destruct Hc as (shares & Hin & _ & _ & Hup & _).
  destruct Hc' as (shares' & Hin' & _ & _ & Hdown & _).
  rewrite Ec in Hin. rewrite Ec' in Hin'.
  apply (Map_get_In trends n shares Hnd) in Hin.
  apply (Map_get_In trends n shares' Hnd) in Hin'.
  assert (shares = shares') by congruence. subst shares'. lra.
Qed.

Lemma rising_and_declining_are_disjoint_witness :
  In "x"%string (identifyRisingDecks (analyzeTrends risingHistory))
  /\ ~ In "x"%string (identifyDecliningDecks (analyzeTrends risingHistory)).
Proof.
  assert (H : In "x"%string (identifyRisingDecks (analyzeTrends risingHistory)))
    by (vm_compute; left; reflexivity).
  split; [exact H|].
  apply (rising_and_declining_are_disjoint risingHistory "x" H).
Defined.

(** *** Confidence of a prediction *)

(** X21. More history never lowers the confidence of a prediction, which is 0
    exactly when there are fewer than two snapshots and at least 0.3 and at
    most 0.9 otherwise. *)
Theorem prediction_confidence_grows_with_history :
  forall h1 h2 : list TimeSeries,
    ((List.length h1 <= List.length h2)%nat ->
     prediction_confidenceLevel (predictMetaEvolution h1)
     <= prediction_confidenceLevel (predictMetaEvolution h2))
    /\ ((List.length h1 < 2)%nat
        <-> prediction_confidenceLevel (predictMetaEvolution h1) == 0)
    /\ ((2 <= List.length h1)%nat ->
        0.3 <= prediction_confidenceLevel (predictMetaEvolution h1) <= 0.9).
Proof.
  intros h1 h2.
  assert (Hval : forall h : list TimeSeries,
             ((List.length h < 2)%nat
              /\ prediction_confidenceLevel (predictMetaEvolution h) = 0)
             \/ ((2 <= List.length h < 3)%nat
                 /\ prediction_confidenceLevel (predictMetaEvolution h) = 0.3)
             \/ ((3 <= List.length h < 5)%nat
                 /\ prediction_confidenceLevel (predictMetaEvolution h) = 0.5)
             \/ ((5 <= List.length h < 10)%nat
                 /\ prediction_confidenceLevel (predictMetaEvolution h) = 0.7)
             \/ ((10 <= List.length h)%nat
                 /\ prediction_confidenceLevel (predictMetaEvolution h) = 0.9)).
  { intro h. unfold predictMetaEvolution, calculatePredictionConfidence.
    destruct (Nat.ltb (List.length h) 2) eqn:E2.
    - apply Nat.ltb_lt in E2. left. split; [exact E2 | reflexivity].
    - apply Nat.ltb_ge in E2. right. cbn [prediction_confidenceLevel].
      destruct (Nat.leb 10 (List.length h)) eqn:E10.
      { apply Nat.leb_le in E10. right. right. right. split; [lia | reflexivity]. }
      apply Nat.leb_gt in E10.
      destruct (Nat.leb 5 (List.length h)) eqn:E5.
      { apply Nat.leb_le in E5. right. right. left. split; [lia | reflexivity]. }
      apply Nat.leb_gt in E5.
      destruct (Nat.leb 3 (List.length h)) eqn:E3.
      { apply Nat.leb_le in E3. right. left. split; [lia | reflexivity]. }
      apply Nat.leb_gt in E3. left. split; [lia | reflexivity]. }
  split; [|split].
  - intro Hle.
    destruct (Hval h1) as [[L1 ->] | [[L1 ->] | [[L1 ->] | [[L1 ->] | [L1 ->]]]]];
      destruct (Hval h2) as [[L2 ->] | [[L2 ->] | [[L2 ->] | [[L2 ->] | [L2 ->]]]]];
      try lia; lra.
  - destruct (Hval h1) as [[L1 ->] | [[L1 ->] | [[L1 ->] | [[L1 ->] | [L1 ->]]]]];
      split; intro H; try lia; try lra; try reflexivity.
  - intro H2.
    destruct (Hval h1) as [[L1 ->] | [[L1 ->] | [[L1 ->] | [[L1 ->] | [L1 ->]]]]];
      try lia; lra.
Qed.

End TrendsMore.

(** ** The diversity and counter-play readings *)

Section Readings.

Lemma sum_squares_le_square {A : Type} (f : A -> Q) (l : list A) :
  (forall x, In x l -> 0 <= f x) ->
  0 <= sumOver f l
  /\ sumOver (fun x => f x * f x) l <= sumOver f l * sumOver f l.
Proof.
  induction l as [|x l IH]; intro H; simpl.
  - split; lra.
  - assert (Hx : 0 <= f x) by (apply H; left; reflexivity).
    destruct IH as [IH1 IH2]; [intros y Hy; apply H; right; exact Hy|].
    assert (Hm : 0 <= f x * sumOver f l) by (apply Qmult_le_0_compat; assumption).
    split; [lra|].
    assert (E : (f x + sumOver f l) * (f x + sumOver f l)
                == f x * f x + 2 * (f x * sumOver f l) + sumOver f l * sumOver f l)
      by ring.
    rewrite E. lra.
Qed.

Lemma sum_squares_nonneg {A : Type} (f : A -> Q) (l : list A) :
  0 <= sumOver (fun x => f x * f x) l.
Proof.
  induction l as [|x l IH]; simpl; [lra|].
  assert (0 <= f x * f x).
  { destruct (Qlt_le_dec (f x) 0) as [Hn | Hp].
    - assert (E : f x * f x == (- f x) * (- f x)) by ring.
      rewrite E. apply Qmult_le_0_compat; lra.
    - apply Qmult_le_0_compat; assumption. }
  lra.
Qed.

Lemma simpson_loop (T : Q) (l : list Api.Deck) :
  Qeq_bool T 0 = false ->
  forall c : Q,
  exists s,
    fold_left
      (fun (sum : option Q) d =>
         match sum, Js.div (Api.share d) T with
         | Some sum, Some proportion => Some (sum + proportion * proportion)
         | _, _ => None
         end)
      l (Some c) = Some s
    /\ s * (T * T) == c * (T * T) + sumOver (fun d => Api.share d * Api.share d) l.
Proof.
  intro HT. assert (HT' : ~ T == 0) by (apply Qeq_bool_neq, HT).
  induction l as [|d l IH]; intro c; simpl.
  - exists c. split; [reflexivity | ring].
  - assert (Hdiv : Js.div (Api.share d) T = Some (Api.share d / T))
      by (unfold Js.div; rewrite HT; reflexivity).
    rewrite Hdiv.
    destruct (IH (c + Api.share d / T * (Api.share d / T))) as (s & Hs & E).
    exists s. split; [exact Hs|]. rewrite E. field. exact HT'.
Qed.

(** X22. The Simpson index is a number for every field (no division by zero is
    reached), it is at most 1, and it is not negative when no share is
    negative. *)
Theorem simpson_index_range :
  forall decks : list Api.Deck,
  exists r,
    AdvancedMetaAnalyzer.calculateDiversityIndex decks = Some r
    /\ r <= 1
    /\ ((forall d, In d decks -> 0 <= Api.share d) -> 0 <= r).
Proof.
  intro decks. unfold AdvancedMetaAnalyzer.calculateDiversityIndex.
  set (T := fold_left (fun sum d => sum + Api.share d) decks 0).
  assert (ET : T == sumOver Api.share decks).
  { unfold T. rewrite fold_sum. ring. }
  destruct (Qeq_bool T 0) eqn:HT.
  - exists 0. split; [reflexivity|]. split; [lra | intros _; lra].
  - destruct (simpson_loop T decks HT 0) as (s & Hs & E).
    rewrite Hs. exists (1 - s). split; [reflexivity|].
    apply Qeq_bool_neq in HT.
    assert (HTT : 0 < T * T).
    { destruct (Qlt_le_dec T 0) as [Hn | Hp].
      - assert (E' : T * T == (- T) * (- T)) by ring.
        rewrite E'. apply Qmult_lt_0_compat; lra.
      - assert (0 < T).
        { apply Qle_lteq in Hp. destruct Hp as [Hp | Hp]; [exact Hp|].
          exfalso. apply HT. symmetry. exact Hp. }
        apply Qmult_lt_0_compat; assumption. }
    pose proof (sum_squares_nonneg Api.share decks) as Hsq.
    split.
    + assert (0 <= s * (T * T)) by (rewrite E; lra).
      assert (0 <= s).
      { destruct (Qlt_le_dec s 0) as [Hn | Hp]; [|exact Hp].
        exfalso.
        assert (s * (T * T) < 0 * (T * T)) by (apply Qmult_lt_compat_r; assumption).
        lra. }
      lra.
    + intro Hshares.
      destruct (sum_squares_le_square Api.share decks Hshares) as [_ Hle].
      rewrite <- ET in Hle.
      assert (Hs1 : s * (T * T) <= 1 * (T * T)) by (rewrite E; lra).
      assert (s <= 1).
      { destruct (Qlt_le_dec 1 s) as [Hn | Hp]; [|exact Hp].
        exfalso.
        assert (1 * (T * T) < s * (T * T)) by (apply Qmult_lt_compat_r; assumption).
        lra. }
      lra.
Qed.

Lemma round_percentage (x : Q) :
  0 <= x <= 100 -> 0 <= Js.Math_round (x * 100) / 100 <= 100.
Proof.
  intros [H0 H100]. unfold Js.Math_round.
  assert (Hlo : (0 <= Qfloor (x * 100 + (1 # 2)))%Z).
  { change 0%Z with (Qfloor 0). apply Qfloor_resp_le. lra. }
  assert (Hhi : (Qfloor (x * 100 + (1 # 2)) <= 10000)%Z).
  { change 10000%Z with (Qfloor (10000 + (1 # 2))). apply Qfloor_resp_le. lra. }
  rewrite Zle_Qle in Hlo, Hhi.
  change (inject_Z 0) with 0 in Hlo. change (inject_Z 10000) with 10000 in Hhi.
  split.
  - apply Qle_shift_div_l; lra.
  - apply Qle_shift_div_r; lra.
Qed.

Lemma counter_loop (rates : list Q) :
  forall acc : Q * Q,
    0 <= fst acc <= snd acc ->
    let r :=
      fold_left
        (fun (acc : Q * Q) winRate =>
           let totalMatchups := snd acc + 1 in
           if Js.geb winRate 65 || Qle_bool winRate 35
           then (fst acc + 1, totalMatchups)
           else (fst acc, totalMatchups))
        rates acc in
    0 <= fst r <= snd r /\ snd r == snd acc + Js.len rates.
Proof.
  induction rates as [|w rates IH]; intros acc Hacc; simpl.
  - split; [exact Hacc|]. unfold Js.len. simpl. ring.
  - destruct (Js.geb w 65 || Qle_bool w 35).
    + destruct (IH (fst acc + 1, snd acc + 1)) as [H1 H2]; [cbn [fst snd]; lra|].
      split; [exact H1|]. rewrite H2, len_cons. cbn [snd]. ring.
    + destruct (IH (fst acc, snd acc + 1)) as [H1 H2]; [cbn [fst snd]; lra|].
      split; [exact H1|]. rewrite H2, len_cons. cbn [snd]. ring.
Qed.

(** X23. The counter-play index is a percentage, and it is 0 when no deck has a
    matchup entry. *)
Theorem counter_play_index_range :
  forall decks : list AdvancedMetaAnalysis.DeckData,
    (0 <= AdvancedMetaAnalysis.calculateCounterPlayIndex decks <= 100)
    /\ ((forall d, In d decks -> AdvancedMetaAnalysis.matchups d = []) ->
        AdvancedMetaAnalysis.calculateCounterPlayIndex decks == 0).
Proof.
  intro decks. unfold AdvancedMetaAnalysis.calculateCounterPlayIndex. cbv zeta.
  assert (Hloop : forall (l : list AdvancedMetaAnalysis.DeckData) (acc : Q * Q),
             0 <= fst acc <= snd acc ->
             let r :=
               fold_left
                 (fun (acc : Q * Q) deck =>
                    fold_left
                      (fun (acc : Q * Q) winRate =>
                         let totalMatchups := snd acc + 1 in
                         if Js.geb winRate 65 || Qle_bool winRate 35
                         then (fst acc + 1, totalMatchups)
                         else (fst acc, totalMatchups))
                      (map snd (AdvancedMetaAnalysis.matchups deck)) acc)
                 l acc in
             0 <= fst r <= snd r
             /\ ((forall d, In d l -> AdvancedMetaAnalysis.matchups d = []) ->
                 r = acc)).
  { induction l as [|d l IH]; intros acc Hacc; simpl.
    - split; [exact Hacc | reflexivity].
    - destruct (counter_loop (map snd (AdvancedMetaAnalysis.matchups d)) acc Hacc)
        as [H1 _].
      cbv zeta in H1. destruct (IH _ H1) as [H2 H3]. cbv zeta in H2, H3.
      split; [exact H2|]. intro Hnone.
      rewrite H3 by (intros d' Hd'; apply Hnone; right; exact Hd').
      rewrite (Hnone d (or_introl eq_refl)). reflexivity. }
  destruct (Hloop decks (0, 0)) as [Hcounts Hnone]; [cbn [fst snd]; lra|].
  cbv zeta in Hcounts, Hnone.
  match type of Hcounts with
  | 0 <= fst ?r <= _ => set (counts := r) in *
  end.
  split.
  - apply round_percentage. cmp_case; [|lra]. split.
    + apply Qmult_le_0_compat; [|lra]. apply Qle_shift_div_l; lra.
    + assert (fst counts / snd counts <= 1) by (apply Qle_shift_div_r; lra).
      lra.
  - intro H. rewrite (Hnone H). cbn [fst snd]. vm_compute. reflexivity.
Qed.

(** X24. [findHiddenGems] returns at most three decks of the field, each with a
    share below 8, a meta score above 52 and a placement within the first
    sixty percent of the field; when it returns fewer than three, it
    returns every such deck. *)
Theorem findHiddenGems_picks :
  forall decks : list AdvancedMetaAnalysis.DeckData,
    let gems := AdvancedMetaAnalysis.findHiddenGems decks in
    (List.length gems <= 3)%nat
    /\ (forall d, In d gems ->
          In d decks
          /\ AdvancedMetaAnalysis.share d < 8
          /\ 52 < AdvancedMetaAnalysis.metaScore d
          /\ AdvancedMetaAnalysis.placement d <= Js.len decks * 0.6)
    /\ ((List.length gems < 3)%nat ->
        forall d, In d decks ->
                  AdvancedMetaAnalysis.share d < 8 ->
                  52 < AdvancedMetaAnalysis.metaScore d ->
                  AdvancedMetaAnalysis.placement d <= Js.len decks * 0.6 ->
                  In d gems).
Proof.
  intros decks gems. unfold gems, AdvancedMetaAnalysis.findHiddenGems.
  match goal with
  | |- context [Js.slice 0 3 (filter ?p decks)] =>
      destruct (slice_filter_spec 3 p decks) as (H1 & H2 & H3)
  end.
  split; [exact H1|]. split.
  - intros d Hd. destruct (H2 d Hd) as [Hin Hp].
    apply andb_true_iff in Hp. destruct Hp as [Hp Hc].
    apply andb_true_iff in Hp. destruct Hp as [Ha Hb].
    apply ltb_true in Ha. apply gtb_true in Hb. apply Qle_bool_iff in Hc. auto.
  - intros Hlen d Hd Ha Hb Hc. apply (H3 Hlen d Hd).
    apply ltb_true in Ha. apply gtb_true in Hb. apply Qle_bool_iff in Hc.
    rewrite Ha, Hb, Hc. reflexivity.
Qed.

End Readings.

(** ** The diversity index of the storage layer *)

Section StorageDiversity.
Context (Math_log : Q -> option Q) (Math_exp : Q -> Q).

Lemma entropy_loop (T : Q) (l : list Api.Deck) :
  0 < T ->
  (forall q, q <= 0 -> Math_log q = None) ->
  (forall q, 0 < q -> Math_log q <> None) ->
  forall o : option Q,
    fold_left
      (fun (sum : option Q) deck =>
         match sum, Js.div (Api.share deck) T with
         | Some sum, Some proportion =>
             match Math_log proportion with
             | Some logarithm => Some (sum - proportion * logarithm)
             | None => None
             end
         | _, _ => None
         end)
      l o = None
    <-> o = None \/ exists d, In d l /\ Api.share d <= 0.
Proof.
  intros HT Hlow Hpos. induction l as [|d l IH]; intro o; simpl.
  - split; [intro H; left; exact H | intros [H | (d & [] & _)]; exact H].
  - rewrite IH. clear IH.
    assert (Hdiv : Js.div (Api.share d) T = Some (Api.share d / T)).
    { unfold Js.div. destruct (Qeq_bool T 0) eqn:E; [|reflexivity].
      apply Qeq_bool_eq in E. lra. }
    rewrite Hdiv.
    destruct (Qlt_le_dec 0 (Api.share d)) as [Hd | Hd].
    + assert (Hp : 0 < Api.share d / T) by (apply Qlt_shift_div_l; lra).
      specialize (Hpos _ Hp).
      destruct (Math_log (Api.share d / T)) as [lg|]; [|congruence].
      split.
      * intros [H | (d' & Hd' & Hs)].
        -- destruct o; [discriminate H | left; reflexivity].
        -- right. exists d'. auto.
      * intros [-> | (d' & [<- | Hd'] & Hs)].
        -- left. reflexivity.
        -- lra.
        -- right. exists d'. auto.
    + assert (Hp : Api.share d / T <= 0).
      { apply Qle_shift_div_r; lra. }
      rewrite (Hlow _ Hp). split.
      * intros _. right. exists d. auto.
      * intros _. left. destruct o; reflexivity.
Qed.

(** X25. On a host whose logarithm is finite exactly on the positive numbers,
    and for a field without negative shares whose shares do not sum to 0,
    the diversity index of the storage layer is NaN exactly when some deck
    of the field has a share of 0. *)
Theorem storage_diversity_nan_on_zero_share :
  forall decks : list Api.Deck,
    (forall q, q <= 0 -> Math_log q = None) ->
    (forall q, 0 < q -> Math_log q <> None) ->
    (forall d, In d decks -> 0 <= Api.share d) ->
    ~ sumOver Api.share decks == 0 ->
    (DataStorage.calculateDiversityIndex Math_log Math_exp decks = None
     <-> exists d, In d decks /\ Api.share d == 0).
Proof.
  intros decks Hlow Hpos Hshares Htotal.
  unfold DataStorage.calculateDiversityIndex.
  set (T := fold_left (fun sum d => sum + Api.share d) decks 0).
  assert (ET : T == sumOver Api.share decks) by (unfold T; rewrite fold_sum; ring).
  assert (HT : 0 < T).
  { pose proof (sumOver_nonneg Api.share decks Hshares) as H0.
    rewrite ET. apply Qle_lteq in H0. destruct H0 as [H0 | H0]; [exact H0|].
    exfalso. apply Htotal. symmetry. exact H0. }
  assert (E : Qeq_bool T 0 = false).
  { destruct (Qeq_bool T 0) eqn:E; [|reflexivity]. apply Qeq_bool_eq in E. lra. }
  rewrite E.
  pose proof (entropy_loop T decks HT Hlow Hpos (Some 0)) as Hloop.
  match type of Hloop with
  | ?f = None <-> _ => destruct f as [v|] eqn:Ef
  end; simpl; split.
  - discriminate.
  - intros (d & Hd & Hs). exfalso.
    assert (H : Some v = None); [|discriminate H].
    apply Hloop. right. exists d. split; [exact Hd | lra].
  - intros _. destruct Hloop as [Hloop _].
    destruct (Hloop eq_refl) as [H | (d & Hd & Hs)]; [discriminate H|].
    exists d. split; [exact Hd|]. specialize (Hshares d Hd). lra.
  - reflexivity.
Qed.

End StorageDiversity.

Lemma storage_diversity_nan_witness :
  DataStorage.calculateDiversityIndex exampleLog (fun q => q) fieldWithUnplayedDeck
  = None
  <-> exists d, In d fieldWithUnplayedDeck /\ Api.share d == 0.
Proof.
  apply (storage_diversity_nan_on_zero_share exampleLog (fun q => q)
           fieldWithUnplayedDeck).
  - intros q Hq. unfold exampleLog. apply Qle_bool_iff in Hq. rewrite Hq.
    reflexivity.
  - intros q Hq. unfold exampleLog.
    destruct (Qle_bool q 0) eqn:E; [|discriminate].
    apply Qle_bool_iff in E. lra.
  - intros d Hd. simpl in Hd.
    destruct Hd as [<- | [<- | [<- | []]]]; simpl; lra.
  - simpl. lra.
Defined.
